(** * Instrumental-variables notebook: helper functions and pipeline

    A shallow embedding of the notebook "Instrumental Variables"
    (Akesari12/Intro_Causal_Inference): the two helper functions
    [coefficient_to_odds_ratio] and [ate_odds_ratio] and the sequence of
    cells that loads [voucher_df], summarises it, computes the unconditional
    ATE and fits the naive and the two-stage regressions.

    The notebook comes in two copies: the checkpoint, with every cell filled
    in and its outputs recorded, and the exercise copy, where the ATE, the
    formulas and the arguments of the helper calls are left as [...] and the
    two regression stages are two cells instead of one.  The helper
    functions are the same in both; the cells below are those of the
    filled-in copy.

    Modelling choices.
    - In the cells a Python [float] is a real number ([R]); the one piece of
      float behaviour the cells rely on, [ZeroDivisionError] on a zero
      divisor, is kept ([truediv]).  What rounding and the range of binary64
      change is stated on two models of their own: module [Binary64] re-runs
      the arithmetic of [ate_odds_ratio] on IEEE-754 binary64 values, and
      module [Rounded] is [math.exp] with its result rounded to binary64 and
      its [OverflowError].
    - A column of the table holds numbers only: a missing value, for which
      patsy drops the row, is not part of the model.
    - The notebook kernel is explicit state ([kernel]): the global variables
      the cells bind, standard output, the values the cells display, and a
      log of the accesses made to the columns of [voucher_df].
    - A cell is a computation in a state-and-exception monad [M]; a raised
      exception keeps the state reached so far, as the kernel does.
    - pandas and statsmodels are not part of the repository: what the cells
      take from them is the interface [Libraries]. *)

From Stdlib Require Import Reals Lra QArith Floats.
From stdpp Require Import base option list gmap strings pretty.

Local Open Scope R_scope.

(** ** Python values, exceptions and outcomes *)

Inductive exn : Type :=
| ZeroDivisionError
| OverflowError
| NameError (name : string)
| KeyError (key : string)
| IndexError
| ValueError
| PatsyError (term : string)
| ExternalError (msg : string).

Inductive outcome (A : Type) : Type :=
| Raise (e : exn)
| Return (a : A).
Arguments Raise {A} e.
Arguments Return {A} a.

#[global] Instance outcome_ret : MRet outcome := fun A a => Return a.
#[global] Instance outcome_bind : MBind outcome := fun A B f o =>
  match o with
  | Return a => f a
  | Raise e => Raise e
  end.

(** What a call returns: the helpers have no [return] statement. *)
Inductive pyval : Type :=
| PyNone
| PyFloat (x : R).

#[global] Instance R_eq_dec : EqDecision R := Req_dec_T.

(** [a / b] on Python floats (the cells pass float literals): a zero
    divisor raises, it does not give an infinity or a NaN. *)
Definition truediv (a b : R) : outcome R :=
  if decide (b = 0) then Raise ZeroDivisionError else Return (a / b).

(** ** The observation table *)

(** A pandas DataFrame: the length of its index and its columns by name. *)
Record DataFrame : Type := Frame {
  nrows : nat;
  columns : gmap string (list R)
}.

(** One access of a cell to [voucher_df]. *)
Inductive access : Type :=
| Read (column : string)
| ReadFrame
| Write (column : string).

(** A patsy formula ["lhs ~ t1 + t2 + ..."], already split into its terms. *)
Record formula : Type := Formula {
  lhs : string;
  rhs : list string
}.

(** ** External libraries *)

Class Libraries : Type := {
  (** the table [DataFrame.describe()] returns *)
  description : Type;
  (** everything [GLMResults.summary()] reports besides the coefficients *)
  fit_report : Type;
  (** the date and time [summary()] stamps on its report *)
  timestamp : Type;
  read_sas : string -> outcome DataFrame;
  describe : DataFrame -> outcome description;
  (** iteratively reweighted least squares on a design matrix and a response *)
  glm_fit : list (list R) -> list R -> outcome (list R * fit_report)
}.

Section Notebook.
Context `{Libraries}.

Record GLMResults : Type := Results {
  exog : list (list R);
  params : list R;
  report : fit_report
}.

(** What [print] receives.  [Formatted t x] is [t.format(x)]. *)
Inductive printed : Type :=
| Text (s : string)
| Formatted (template : string) (x : R)
| DescribeTable (d : description)
| Summary (r : GLMResults) (stamp : timestamp).

(** The value a cell displays as its [Out]. *)
Inductive shown : Type :=
| ShownFrame (df : DataFrame)
| ShownFloat (x : R).

Record kernel : Type := Kernel {
  voucher_df : option DataFrame;
  ate : option R;
  result : option GLMResults;
  stdout : list printed;
  displayed : list shown;
  accesses : list access;
  clock_reads : nat
}.

Definition kernel0 : kernel := Kernel None None None [] [] [] 0.

Definition with_voucher_df (df : DataFrame) (k : kernel) : kernel :=
  Kernel (Some df) (ate k) (result k) (stdout k) (displayed k) (accesses k) (clock_reads k).
Definition with_ate (x : R) (k : kernel) : kernel :=
  Kernel (voucher_df k) (Some x) (result k) (stdout k) (displayed k) (accesses k) (clock_reads k).
Definition with_result (r : GLMResults) (k : kernel) : kernel :=
  Kernel (voucher_df k) (ate k) (Some r) (stdout k) (displayed k) (accesses k) (clock_reads k).
Definition with_stdout (out : list printed) (k : kernel) : kernel :=
  Kernel (voucher_df k) (ate k) (result k) out (displayed k) (accesses k) (clock_reads k).
Definition with_displayed (d : list shown) (k : kernel) : kernel :=
  Kernel (voucher_df k) (ate k) (result k) (stdout k) d (accesses k) (clock_reads k).
Definition with_accesses (a : list access) (k : kernel) : kernel :=
  Kernel (voucher_df k) (ate k) (result k) (stdout k) (displayed k) a (clock_reads k).
Definition with_clock_reads (n : nat) (k : kernel) : kernel :=
  Kernel (voucher_df k) (ate k) (result k) (stdout k) (displayed k) (accesses k) n.

(** ** The monad of cells *)

Definition M (A : Type) : Type := kernel -> kernel * outcome A.

#[global] Instance M_ret : MRet M := fun A a k => (k, Return a).
#[global] Instance M_bind : MBind M := fun A B f m k =>
  match m k with
  | (k', Return a) => f a k'
  | (k', Raise e) => (k', Raise e)
  end.

Definition lift {A} (o : outcome A) : M A := fun k => (k, o).
Definition print (l : printed) : M unit :=
  fun k => (with_stdout (stdout k ++ [l]) k, Return tt).
Definition display (v : shown) : M unit :=
  fun k => (with_displayed (displayed k ++ [v]) k, Return tt).
Definition touch (a : access) : M unit :=
  fun k => (with_accesses (accesses k ++ [a]) k, Return tt).

(** ** Helper functions

    Neither body has a [return]: a call evaluates to [None]. *)

(** [odds = math.exp(coefficient)], then [print("...{:2f}...".format(odds))];
    the exponential is the real one (for its rounding and its
    [OverflowError] see [Rounded.coefficient_to_odds_ratio]). *)
Definition coefficient_to_odds_ratio (coefficient : R) : M pyval :=
  let odds := exp coefficient in
  print (Formatted "Those using financial aid are {:2f} times more likely to finish the 8th grade!" odds);;
  mret PyNone.

(** [odds = (prob1/(1-prob1)) - (prob0/(1-prob0))], the left quotient
    first, then [print("Odds ratio: {}".format(odds))]. *)
Definition ate_odds_ratio (prob0 prob1 : R) : M pyval :=
  a ← lift (truediv prob1 (1 - prob1));
  b ← lift (truediv prob0 (1 - prob0));
  let odds := a - b in
  print (Formatted "Odds ratio: {}" odds);;
  mret PyNone.

(** The number a call formatted into the last line it printed. *)
Definition odds_printed (m : M pyval) (k : kernel) : option R :=
  match m k with
  | (k', Return _) =>
      match last (stdout k') with
      | Some (Formatted _ x) => Some x
      | _ => None
      end
  | (_, Raise _) => None
  end.

(** ** Global variables of the notebook *)

Definition the_frame : M DataFrame := fun k =>
  match voucher_df k with
  | Some df => (k, Return df)
  | None => (k, Raise (NameError "voucher_df"))
  end.
Definition the_ate : M R := fun k =>
  match ate k with
  | Some x => (k, Return x)
  | None => (k, Raise (NameError "ate"))
  end.
Definition the_result : M GLMResults := fun k =>
  match result k with
  | Some r => (k, Return r)
  | None => (k, Raise (NameError "result"))
  end.
Definition assign_voucher_df (df : DataFrame) : M unit :=
  fun k => (with_voucher_df df k, Return tt).
Definition assign_ate (x : R) : M unit :=
  fun k => (with_ate x k, Return tt).
Definition assign_result (r : GLMResults) : M unit :=
  fun k => (with_result r k, Return tt).

(** ** pandas operations on [voucher_df] *)

(** [voucher_df[c]] *)
Definition getitem (c : string) : M (list R) :=
  df ← the_frame;
  touch (Read c);;
  match columns df !! c with
  | Some col => mret col
  | None => lift (Raise (KeyError c))
  end.

(** [voucher_df[c] = values]: the column is added to (or replaced in) the
    frame the variable is bound to; a length other than the index's is
    refused. *)
Definition setitem (c : string) (values : list R) : M unit :=
  df ← the_frame;
  if decide (length values = nrows df)
  then touch (Write c);;
       assign_voucher_df (Frame (nrows df) (<[c := values]> (columns df)))
  else lift (Raise ValueError).

Fixpoint compress {A} (mask : list bool) (xs : list A) : list A :=
  match mask, xs with
  | b :: mask', x :: xs' => if b then x :: compress mask' xs' else compress mask' xs'
  | _, _ => []
  end.

(** [voucher_df[mask]]: the rows where the mask holds, as a new frame. *)
Definition select (mask : list bool) : M DataFrame :=
  df ← the_frame;
  touch ReadFrame;;
  mret (Frame (length (compress mask (seq 0 (nrows df)))) (compress mask <$> columns df)).

(** [df.head()] *)
Definition head (df : DataFrame) : DataFrame :=
  Frame (Nat.min 5 (nrows df)) (take 5 <$> columns df).

(** [voucher_df.describe()] *)
Definition describe_frame : M description :=
  df ← the_frame;
  touch ReadFrame;;
  lift (describe df).

(** ** statsmodels: binomial GLM on a formula *)

(** A variable of the formula, looked up in the data frame. *)
Definition patsy_column (df : DataFrame) (c : string) : M (list R) :=
  touch (Read c);;
  match columns df !! c with
  | Some col => mret col
  | None => lift (Raise (PatsyError c))
  end.

(** One row per index entry: the intercept, then the terms of the formula
    (no row is dropped: the columns hold no missing value). *)
Definition design_matrix (n : nat) (xs : list (list R)) : list (list R) :=
  map (fun i => 1 :: map (fun col => nth i col 0) xs) (seq 0 n).

(** [smf.glm(formula, data=voucher_df, family=sm.families.Binomial()).fit()]:
    the response and the regressors are read from the frame, in the order
    of the formula, and handed to the fitting routine. *)
Definition glm (f : formula) : M GLMResults :=
  df ← the_frame;
  y ← patsy_column df (lhs f);
  xs ← mapM (patsy_column df) (rhs f);
  fit ← lift (glm_fit (design_matrix (nrows df) xs) y);
  mret (Results (design_matrix (nrows df) xs) fit.1 fit.2).

(** [np.dot] of a row and the coefficients. *)
Definition dot (xs ys : list R) : outcome R :=
  if decide (length xs = length ys)
  then Return (foldr Rplus 0 (zip_with Rmult xs ys))
  else Raise ValueError.

(** Modelled from the spec: statsmodels is not part of the sources; the
    prediction of a binomial GLM (logit link) is the sigmoid of the linear
    predictor, here over the reals, where it never reaches 0 or 1. *)
Definition expit (z : R) : R := 1 / (1 + exp (- z)).

(** Modelled from the spec: [result.predict()], the fitted probability of
    every row of the design matrix the model was fitted on. *)
Definition predict (r : GLMResults) : outcome (list R) :=
  mapM (fun row => eta ← dot row (params r); mret (expit eta)) (exog r).

(** [result.summary()]: the report, stamped with the current date and time. *)
Definition summary (clock : nat -> timestamp) (r : GLMResults) : M printed :=
  fun k => (with_clock_reads (S (clock_reads k)) k, Return (Summary r (clock (clock_reads k)))).

(** [result.params[1]] *)
Definition params_1 (r : GLMResults) : outcome R :=
  match params r !! 1%nat with
  | Some c => Return c
  | None => Raise IndexError
  end.

(** ** The cells *)

Definition rule : string :=
  "==============================================================================".

Definition banner (title : string) : M unit :=
  print (Text rule);; print (Text title);; print (Text rule).

(** [voucher_df = pd.read_sas('colvoucher.sas7bdat')], then
    [voucher_df.head()] as the value of the cell. *)
Definition cell_load : M unit :=
  df ← lift (read_sas "colvoucher.sas7bdat");
  assign_voucher_df df;;
  df ← the_frame;
  touch ReadFrame;;
  display (ShownFrame (head df)).

(** The body of [for i in range(2)]:
    [print(voucher_df[voucher_df['use_fin_aid']==i].describe())] under its
    banner. *)
Definition summary_of_group (i : nat) : M unit :=
  banner ("                         USE FINANCIAL AID = " +:+ pretty i);;
  col ← getitem "use_fin_aid";
  sub ← select ((fun v => bool_decide (v = INR i)) <$> col);
  d ← lift (describe sub);
  print (DescribeTable d).

Definition cell_summary : M unit :=
  banner "                              OVERALL SUMMARY";;
  d ← describe_frame;
  print (DescribeTable d);;
  mapM summary_of_group (seq 0 2);;
  mret tt.

(** [ate = 0.737151 - 0.604082], then [ate] as the value of the cell. *)
Definition cell_ate : M unit :=
  assign_ate (0.737151 - 0.604082);;
  x ← the_ate;
  display (ShownFloat x).

(** [ate_odds_ratio(0.604082, 0.737151)]; a cell whose value is [None]
    displays nothing. *)
Definition cell_ate_odds : M unit :=
  ate_odds_ratio 0.604082 0.737151;;
  mret tt.

(** [" finish8th ~ use_fin_aid + male + base_age"],
    ["use_fin_aid ~ won_lottry + male + base_age"] and
    [" finish8th ~ use_fin_aid_fitted + male + base_age"]. *)
Definition naive_formula : formula :=
  Formula "finish8th" ["use_fin_aid"; "male"; "base_age"].
Definition first_stage_formula : formula :=
  Formula "use_fin_aid" ["won_lottry"; "male"; "base_age"].
Definition second_stage_formula : formula :=
  Formula "finish8th" ["use_fin_aid_fitted"; "male"; "base_age"].

Definition cell_naive (clock : nat -> timestamp) : M unit :=
  banner "                            LOGISTIC REGRESSION";;
  r ← glm naive_formula;
  assign_result r;;
  r ← the_result;
  s ← summary clock r;
  print s.

(** [coefficient_to_odds_ratio(result.params[1])] *)
Definition cell_coefficient : M unit :=
  r ← the_result;
  c ← lift (params_1 r);
  coefficient_to_odds_ratio c;;
  mret tt.

(** The first stage: fit, [voucher_df['use_fin_aid_fitted'] =
    result.predict()], print the summary. *)
Definition cell_first_stage (clock : nat -> timestamp) : M unit :=
  banner "                                  FIRST STAGE";;
  r ← glm first_stage_formula;
  assign_result r;;
  r ← the_result;
  fitted ← lift (predict r);
  setitem "use_fin_aid_fitted" fitted;;
  r ← the_result;
  s ← summary clock r;
  print s.

Definition cell_second_stage (clock : nat -> timestamp) : M unit :=
  print (Text "");;
  print (Text "");;
  banner "                                  SECOND STAGE";;
  r ← glm second_stage_formula;
  assign_result r;;
  r ← the_result;
  s ← summary clock r;
  print s.

(** The notebook, run from top to bottom. *)
Definition run_all (clock : nat -> timestamp) : M unit :=
  cell_load;;
  cell_summary;;
  cell_ate;;
  cell_ate_odds;;
  cell_naive clock;;
  cell_coefficient;;
  cell_first_stage clock;;
  cell_second_stage clock;;
  cell_coefficient.

(** ** Observations on a run *)

(** Weakest precondition of a cell: [Q] on normal termination, [E] when an
    exception propagates. *)
Definition wp {A} (m : M A) (Q : A -> kernel -> Prop) (E : exn -> kernel -> Prop)
    (k : kernel) : Prop :=
  match m k with
  | (k', Return a) => Q a k'
  | (k', Raise e) => E e k'
  end.

(** The columns a log of accesses writes, in order. *)
Definition writes (log : list access) : list string :=
  omap (fun a => match a with Write c => Some c | _ => None end) log.

(** The accesses of a complete run before and after the one assignment. *)
Definition log_before : list access :=
  [ReadFrame;
   ReadFrame; Read "use_fin_aid"; ReadFrame; Read "use_fin_aid"; ReadFrame;
   Read "finish8th"; Read "use_fin_aid"; Read "male"; Read "base_age";
   Read "use_fin_aid"; Read "won_lottry"; Read "male"; Read "base_age"].
Definition log_after : list access :=
  [Read "finish8th"; Read "use_fin_aid_fitted"; Read "male"; Read "base_age"].

(** What a printed item reports, the date and time of a summary left out. *)
Inductive statistic : Type :=
| Line (s : string)
| Value (template : string) (x : R)
| Descriptive (d : description)
| Regression (coefficients : list R) (rest : fit_report).

Definition report_of (p : printed) : statistic :=
  match p with
  | Text s => Line s
  | Formatted t x => Value t x
  | DescribeTable d => Descriptive d
  | Summary r _ => Regression (params r) (report r)
  end.

(** The outputs of a run: what was printed, what the cells displayed, the
    ATE, the last fit and the table. *)
Definition outputs_of (k : kernel) :
    list statistic * list shown * option R * option GLMResults * option DataFrame :=
  (report_of <$> stdout k, displayed k, ate k, result k, voucher_df k).

(** The stamps of the summaries printed, in order. *)
Definition stamps (k : kernel) : list timestamp :=
  omap (fun p => match p with Summary _ t => Some t | _ => None end) (stdout k).

(** Two kernels that differ at most in the stamps of the summaries printed
    and in the number of times the clock was read. *)
Definition sim (k1 k2 : kernel) : Prop :=
  outputs_of k1 = outputs_of k2 /\ accesses k1 = accesses k2.

(** Two cells that, from similar kernels, end the same way in similar
    kernels, with results related by [R]. *)
Definition agree {A} (R : A -> A -> Prop) (m1 m2 : M A) : Prop :=
  forall k1 k2, sim k1 k2 ->
    match m1 k1, m2 k2 with
    | (k1', Return a), (k2', Return b) => sim k1' k2' /\ R a b
    | (k1', Raise e1), (k2', Raise e2) => sim k1' k2' /\ e1 = e2
    | _, _ => False
    end.

End Notebook.

(** ** The arithmetic of [ate_odds_ratio] on binary64 floats *)

Module Binary64.
#[local] Set Warnings "-inexact-float".

Definition truediv (a b : float) : outcome float :=
  if PrimFloat.eqb b 0%float then Raise ZeroDivisionError else Return (a / b)%float.

(** The value bound to [odds] in the body of the helper. *)
Definition ate_odds_ratio (prob0 prob1 : float) : outcome float :=
  a ← truediv prob1 (1 - prob1)%float;
  b ← truediv prob0 (1 - prob0)%float;
  mret (a - b)%float.

(** The rational number a finite float stands for. *)
Definition to_Q (f : float) : option Q :=
  match Prim2SF f with
  | S754_zero _ => Some 0%Q
  | S754_finite s m e =>
      Some ((if s then -1 else 1) * inject_Z (Z.pos m) * Qpower 2 e)%Q
  | _ => None
  end.

(** The literal of the output cell: [Odds ratio: 1.2786901424379509]. *)
Definition recorded_odds : float := 1.2786901424379509%float.

End Binary64.

(** ** [math.exp] on binary64 floats *)

Module Rounded.

(** The binade of a positive number: the [e] with [2^e <= x < 2^(e+1)]. *)
Definition binade (x : R) : Z := Int_part (ln x / ln 2).

(** The exponent of the last place of the binary64 numbers of the size of
    [x]: 53 significant bits, and subnormal numbers below [2^-1022]. *)
Definition last_place (x : R) : Z := Z.max (binade x) (-1022) - 52.

(** The nearest integer, a tie going to the even one. *)
Definition nearest (t : R) : Z :=
  let f := Int_part t in
  if Rlt_dec (t - IZR f) (/ 2) then f
  else if Rlt_dec (/ 2) (t - IZR f) then (f + 1)%Z
  else if Z.even f then f else (f + 1)%Z.

Definition round_pos (x : R) : R :=
  let q := last_place x in
  IZR (nearest (x * powerRZ 2 (- q))) * powerRZ 2 q.

(** Rounding to the nearest binary64 number, the exponent not bounded
    above. *)
Definition round64 (x : R) : R :=
  if Rlt_dec 0 x then round_pos x
  else if Rlt_dec x 0 then - round_pos (- x)
  else 0.

(** The largest finite binary64 number. *)
Definition DBL_MAX : R := (powerRZ 2 53 - 1) * powerRZ 2 971.

(** [math.exp(x)] for a finite [x]: the exponential, rounded; a result
    beyond the largest float is an [OverflowError], a result below the
    smallest is [0.0].  The C library behind [math.exp] promises an error
    below one unit in the last place; it is taken here to round to the
    nearest float. *)
Definition math_exp (x : R) : outcome R :=
  let y := round64 (exp x) in
  if Rle_dec y DBL_MAX then Return y else Raise OverflowError.

(** The helper with this [math.exp]: when it raises, nothing is printed. *)
Definition coefficient_to_odds_ratio `{Libraries} (coefficient : R) : M pyval :=
  odds ← lift (math_exp coefficient);
  print (Formatted "Those using financial aid are {:2f} times more likely to finish the 8th grade!" odds);;
  mret PyNone.

End Rounded.

(** ** A small instance of the libraries, to run the cells on *)

(** The five rows the notebook shows as [voucher_df.head()]. *)
Definition sample_frame : DataFrame :=
  Frame 5 (list_to_map
    [("id", [3; 4; 5; 6; 10]);
     ("won_lottry", [1; 0; 0; 0; 1]);
     ("male", [0; 1; 1; 0; 1]);
     ("base_age", [11; 11; 11; 9; 11]);
     ("finish8th", [1; 1; 1; 0; 1]);
     ("use_fin_aid", [1; 1; 0; 0; 1])]).

(** Stand-ins: the file holds [sample_frame], a description is the number
    of rows, a fit returns the zero coefficient vector. *)
Definition sample_libraries : Libraries := {|
  description := nat;
  fit_report := unit;
  timestamp := nat;
  read_sas := fun _ => Return sample_frame;
  describe := fun df => Return (nrows df);
  glm_fit := fun X _ =>
    Return (match X with row :: _ => map (fun _ => 0) row | [] => [] end, tt)
|}.

(** The kernel once [voucher_df] is bound to the sample. *)
Definition loaded : kernel (H := sample_libraries) :=
  with_voucher_df sample_frame kernel0.

(** Two clocks that never agree. *)
Definition morning : nat -> nat := fun n => n.
Definition evening : nat -> nat := fun n => S n.

(** [x] is [y] up to one unit of the decimal place [10^-digits]. *)
Definition approx (digits : nat) (x y : R) : Prop :=
  Rabs (x - y) <= / 10 ^ digits.

(** Partial sums of the alternating series of [exp (- x)]. *)
Definition exp_alt (x : R) (n : nat) : R :=
  sum_f_R0 (tg_alt (fun i => x ^ i / INR (fact i))) n.

(** ** Further observations *)

Section Observations.
Context `{Libraries}.

(** A frame whose columns all have the length of its index. *)
Definition well_formed (df : DataFrame) : Prop :=
  forall c col, columns df !! c = Some col -> length col = nrows df.

(** [voucher_df['use_fin_aid']==i] *)
Definition mask_of (i : nat) (col : list R) : list bool :=
  (fun v => bool_decide (v = INR i)) <$> col.

(** [voucher_df[voucher_df['use_fin_aid']==i]], the frame the loop
    describes for group [i]. *)
Definition group_of (i : nat) (col : list R) (df : DataFrame) : DataFrame :=
  Frame (length (compress (mask_of i col) (seq 0 (nrows df))))
        (compress (mask_of i col) <$> columns df).

(** The values of a column that [range(2)] does not reach. *)
Definition ungrouped (col : list R) : list R :=
  filter (fun v => v <> 0 /\ v <> 1) col.

(** The format string of [coefficient_to_odds_ratio]. *)
Definition odds_template : string :=
  "Those using financial aid are {:2f} times more likely to finish the 8th grade!".

(** [k1] continues the kernel [base] the way [k2] continues a fresh kernel;
    the flags say which of the global variables [voucher_df], [ate] and
    [result] are known to be bound alike in both. *)
Definition continues (t a r : bool) (base k1 k2 : kernel) : Prop :=
  (t = true -> voucher_df k1 = voucher_df k2)
  /\ (a = true -> ate k1 = ate k2)
  /\ (r = true -> result k1 = result k2)
  /\ report_of <$> stdout k1 = (report_of <$> stdout base) ++ (report_of <$> stdout k2)
  /\ displayed k1 = displayed base ++ displayed k2
  /\ accesses k1 = accesses base ++ accesses k2.

(** Two cells that, from kernels related with flags [t a r], end the same
    way, in kernels related with flags [t' a' r'] when they return. *)
Definition agree_from {A} (base : kernel) (t a r t' a' r' : bool)
    (R : A -> A -> Prop) (m1 m2 : M A) : Prop :=
  forall k1 k2, continues t a r base k1 k2 ->
    match m1 k1, m2 k2 with
    | (k1', Return x), (k2', Return y) => continues t' a' r' base k1' k2' /\ R x y
    | (_, Raise e1), (_, Raise e2) => e1 = e2
    | _, _ => False
    end.

End Observations.

(** * Properties *)

Section Helpers.
Context `{Libraries}.

Lemma truediv_Return (a b : R) : b <> 0 -> truediv a b = Return (a / b).
Proof. intros Hb. unfold truediv. by rewrite decide_False. Qed.

Lemma truediv_Raise (a : R) : truediv a 0 = Raise ZeroDivisionError.
Proof. unfold truediv. by rewrite decide_True. Qed.

Lemma ate_odds_ratio_Return (k : kernel) (p0 p1 : R) :
  p0 <> 1 -> p1 <> 1 ->
  ate_odds_ratio p0 p1 k =
    (with_stdout (stdout k ++ [Formatted "Odds ratio: {}" (p1 / (1 - p1) - p0 / (1 - p0))]) k,
     Return PyNone).
Proof.
  intros H0 H1. unfold ate_odds_ratio, mbind, M_bind, lift.
  rewrite !truediv_Return by lra. reflexivity.
Qed.

Lemma odds_printed_ate (k : kernel) (p0 p1 : R) :
  p0 <> 1 -> p1 <> 1 ->
  odds_printed (ate_odds_ratio p0 p1) k = Some (p1 / (1 - p1) - p0 / (1 - p0)).
Proof.
  intros H0 H1. unfold odds_printed. rewrite ate_odds_ratio_Return by done.
  simpl. by rewrite last_snoc.
Qed.

Lemma odds_printed_coefficient (k : kernel) (c : R) :
  odds_printed (coefficient_to_odds_ratio c) k = Some (exp c).
Proof. unfold odds_printed. simpl. by rewrite last_snoc. Qed.

Lemma odds_increasing (p q : R) : p < q -> q < 1 -> p / (1 - p) < q / (1 - q).
Proof.
  intros Hpq Hq.
  replace (p / (1 - p)) with (/ (1 - p) - 1) by (field; lra).
  replace (q / (1 - q)) with (/ (1 - q) - 1) by (field; lra).
  apply Rplus_lt_compat_r, Rinv_lt_contravar; nra.
Qed.

Lemma ate_odds_ratio_Raise (k : kernel) (p0 p1 : R) :
  p0 = 1 \/ p1 = 1 -> ate_odds_ratio p0 p1 k = (k, Raise ZeroDivisionError).
Proof.
  intros Hone. unfold ate_odds_ratio, mbind, M_bind, lift.
  destruct (decide (p1 = 1)) as [->|Hp1].
  - replace (1 - 1) with 0 by lra. by rewrite truediv_Raise.
  - destruct Hone as [->|?]; [|done].
    rewrite (truediv_Return p1) by lra.
    replace (1 - 1) with 0 by lra. by rewrite truediv_Raise.
Qed.

(** C1: for probabilities p0, p1 in the open interval (0,1), the call
    [ate_odds_ratio(p0, p1)] succeeds and the odds value it computes (and
    formats into the one line it prints) is p1/(1-p1) - p0/(1-p0). *)
Theorem ate_odds_ratio_formula (k : kernel) (p0 p1 : R) :
  0 < p0 < 1 -> 0 < p1 < 1 ->
  ate_odds_ratio p0 p1 k =
    (with_stdout (stdout k ++ [Formatted "Odds ratio: {}" (p1 / (1 - p1) - p0 / (1 - p0))]) k,
     Return PyNone)
  /\ odds_printed (ate_odds_ratio p0 p1) k = Some (p1 / (1 - p1) - p0 / (1 - p0)).
Proof.
  intros H0 H1. split.
  - apply ate_odds_ratio_Return; lra.
  - apply odds_printed_ate; lra.
Qed.

(** C2: when either probability equals 1, [ate_odds_ratio] raises
    ZeroDivisionError: nothing is printed, the kernel is left as it was, and
    no value (infinite or otherwise) is produced. *)
Theorem ate_odds_ratio_raises_at_one (k : kernel) (p0 p1 : R) :
  p0 = 1 \/ p1 = 1 ->
  ate_odds_ratio p0 p1 k = (k, Raise ZeroDivisionError)
  /\ odds_printed (ate_odds_ratio p0 p1) k = None.
Proof.
  intros Hone. pose proof (ate_odds_ratio_Raise k p0 p1 Hone) as Hrun.
  split; [done|]. unfold odds_printed. by rewrite Hrun.
Qed.

(** C4: over (0,1), the odds value computed by [ate_odds_ratio(p0, p1)]
    increases with p1 when p0 is fixed and decreases with p0 when p1 is
    fixed, strictly in both cases: for q < r, the value at (p, q) is below
    the value at (p, r), and the value at (r, p) is below the value at
    (q, p). *)
Theorem ate_odds_ratio_monotone (k : kernel) (p q r : R) :
  0 < p < 1 -> 0 < q < 1 -> 0 < r < 1 -> q < r ->
  (exists x y,
      odds_printed (ate_odds_ratio p q) k = Some x
      /\ odds_printed (ate_odds_ratio p r) k = Some y
      /\ x < y)
  /\ (exists x y,
      odds_printed (ate_odds_ratio q p) k = Some x
      /\ odds_printed (ate_odds_ratio r p) k = Some y
      /\ y < x).
Proof.
  intros Hp Hq Hr Hqr.
  pose proof (odds_increasing q r Hqr (proj2 Hr)) as Hodds.
  rewrite !odds_printed_ate by lra. split.
  - eexists _, _. repeat split. lra.
  - eexists _, _. repeat split. lra.
Qed.


End Helpers.

(** ** Enclosing [exp] between partial sums *)

Lemma pow_fact_decreasing (x : R) :
  0 <= x <= 1 -> Un_decreasing (fun i => x ^ i / INR (fact i)).
Proof.
  intros Hx i. rewrite fact_simpl, mult_INR, S_INR. simpl pow.
  pose proof (pow_le x i (proj1 Hx)) as Hpow.
  pose proof (INR_fact_lt_0 i) as Hfact.
  pose proof (pos_INR i) as Hi.
  unfold Rdiv. rewrite Rinv_mult.
  assert (0 < / INR (fact i)) by (by apply Rinv_0_lt_compat).
  assert (0 < / (INR i + 1) <= 1).
  { split; [apply Rinv_0_lt_compat; lra|].
    rewrite <- Rinv_1 at 2. apply Rinv_le_contravar; lra. }
  set (a := x ^ i * / INR (fact i)).
  set (c := / (INR i + 1)) in *.
  assert (0 <= a) by (unfold a; nra).
  replace (x * x ^ i * (c * / INR (fact i))) with (x * c * a) by (unfold a; ring).
  assert (0 <= x * c <= 1) by nra.
  nra.
Qed.

Lemma exp_alt_cv (x : R) : Un_cv (exp_alt x) (exp (- x)).
Proof.
  intros eps Heps. destruct (E1_cvg (- x) eps Heps) as [N HN].
  exists N. intros n Hn. specialize (HN n Hn).
  replace (exp_alt x n) with (E1 (- x) n); [done|].
  unfold E1, exp_alt. apply sum_eq. intros i _. unfold tg_alt.
  replace (- x) with (-1 * x) by lra. rewrite Rpow_mult_distr.
  unfold Rdiv. ring.
Qed.

(** On [0, 1] the series alternates with decreasing terms, so consecutive
    partial sums enclose [exp (- x)] and their inverses enclose [exp x]. *)
Lemma exp_enclosure (x : R) (N : nat) :
  0 <= x <= 1 -> 0 < exp_alt x (S (2 * N)) ->
  / exp_alt x (2 * N) <= exp x <= / exp_alt x (S (2 * N)).
Proof.
  intros Hx Hpos.
  destruct (alternated_series_ineq _ (exp (- x)) N
              (pow_fact_decreasing x Hx) (cv_speed_pow_fact x) (exp_alt_cv x))
    as [Hlo Hhi].
  fold (exp_alt x (S (2 * N))) in Hlo. fold (exp_alt x (2 * N)) in Hhi.
  rewrite exp_Ropp in Hlo, Hhi.
  pose proof (exp_pos x) as Hexp.
  rewrite <- (Rinv_inv (exp x)). split.
  - apply Rinv_le_contravar; [by apply Rinv_0_lt_compat | done].
  - apply Rinv_le_contravar; done.
Qed.

Lemma exp_alt_8 (x : R) :
  exp_alt x 8 =
  1 - x * (1 - x / 2 * (1 - x / 3 * (1 - x / 4 * (1 - x / 5 *
    (1 - x / 6 * (1 - x / 7 * (1 - x / 8))))))).
Proof.
  unfold exp_alt, tg_alt. cbv [sum_f_R0].
  rewrite !fact_simpl, !mult_INR, !S_INR. simpl. field.
Qed.

Lemma exp_alt_9 (x : R) :
  exp_alt x 9 =
  1 - x * (1 - x / 2 * (1 - x / 3 * (1 - x / 4 * (1 - x / 5 *
    (1 - x / 6 * (1 - x / 7 * (1 - x / 8 * (1 - x / 9)))))))).
Proof.
  unfold exp_alt, tg_alt. cbv [sum_f_R0].
  rewrite !fact_simpl, !mult_INR, !S_INR. simpl. field.
Qed.

(** [lo < exp x < hi] from the sums of degree 8 and 9; the side conditions
    left are inequalities between rational constants. *)
Ltac enclose_exp x :=
  let Hlo := fresh "Hlo" in
  let Hhi := fresh "Hhi" in
  destruct (exp_enclosure x 4) as [Hlo Hhi];
  [ lra
  | change (S (2 * 4)) with 9%nat; rewrite exp_alt_9; lra
  | change (S (2 * 4)) with 9%nat in Hhi; change (2 * 4)%nat with 8%nat in Hlo;
    rewrite exp_alt_9 in Hhi; rewrite exp_alt_8 in Hlo;
    split;
    [ eapply Rlt_le_trans; [|exact Hlo]
    | eapply Rle_lt_trans; [exact Hhi|] ];
    match goal with
    | |- ?a < / _ => rewrite <- (Rinv_inv a)
    | |- / _ < ?b => rewrite <- (Rinv_inv b)
    end;
    apply Rinv_lt_contravar; lra ].

Lemma exp_naive_coefficient : 1.78122 < exp 0.5773 < 1.78123.
Proof. enclose_exp 0.5773. Qed.

Lemma exp_late_coefficient : 2.16907 < exp 0.7743 < 2.16908.
Proof. enclose_exp 0.7743. Qed.

Lemma approx_intro (digits : nat) (x y : R) :
  y - / 10 ^ digits <= x <= y + / 10 ^ digits -> approx digits x y.
Proof. intros Hx. unfold approx. apply Rabs_le. lra. Qed.

Lemma approx_elim (digits : nat) (x y : R) :
  approx digits x y -> y - / 10 ^ digits <= x <= y + / 10 ^ digits.
Proof.
  unfold approx. intros Hx.
  pose proof (Rle_abs (x - y)) as Hpos.
  pose proof (Rle_abs (- (x - y))) as Hneg. rewrite Rabs_Ropp in Hneg.
  lra.
Qed.

(** ** Rounding and the range of [math.exp] *)

Lemma pow2_pos (n : Z) : 0 < powerRZ 2 n.
Proof. apply powerRZ_lt. lra. Qed.

Lemma pow2_add (n m : Z) : powerRZ 2 (n + m) = powerRZ 2 n * powerRZ 2 m.
Proof. apply powerRZ_add. lra. Qed.

Lemma pow2_ge_1 (n : Z) : (0 <= n)%Z -> 1 <= powerRZ 2 n.
Proof.
  intros Hn. destruct n as [|p|p]; [simpl; lra| |lia].
  simpl. apply pow_R1_Rle. lra.
Qed.

Lemma pow2_le (n m : Z) : (n <= m)%Z -> powerRZ 2 n <= powerRZ 2 m.
Proof.
  intros Hnm. replace m with (n + (m - n))%Z by lia. rewrite pow2_add.
  pose proof (pow2_pos n). pose proof (pow2_ge_1 (m - n) ltac:(lia)). nra.
Qed.

Lemma pow2_lt (n m : Z) : (n < m)%Z -> powerRZ 2 n < powerRZ 2 m.
Proof.
  intros Hnm. replace m with (n + (1 + (m - n - 1)))%Z by lia. rewrite !pow2_add.
  pose proof (pow2_pos n). pose proof (pow2_ge_1 (m - n - 1) ltac:(lia)).
  change (powerRZ 2 1) with (2 * 1). nra.
Qed.

Lemma pow2_IZR (n : Z) : (0 <= n)%Z -> powerRZ 2 n = IZR (2 ^ n).
Proof.
  intros Hn. destruct n as [|p|p]; [done| |lia].
  simpl powerRZ. rewrite pow_IZR. by rewrite positive_nat_Z.
Qed.

Lemma pow2_ln (n : Z) : ln (powerRZ 2 n) = IZR n * ln 2.
Proof. rewrite powerRZ_Rpower by lra. unfold Rpower. apply ln_exp. Qed.

Lemma ln_2_pos : 0 < ln 2.
Proof. pose proof ln_lt_2. lra. Qed.

Lemma ln_le (x y : R) : 0 < x -> x <= y -> ln x <= ln y.
Proof.
  intros Hx [Hlt| ->]; [|lra]. left. by apply ln_increasing.
Qed.

Lemma Int_part_le (r s : R) : r <= s -> (Int_part r <= Int_part s)%Z.
Proof.
  intros Hrs. destruct (base_Int_part r), (base_Int_part s).
  apply Z.lt_succ_r, lt_IZR. rewrite succ_IZR. lra.
Qed.

Lemma Int_part_upper (r : R) (n : Z) : r < IZR n + 1 -> (Int_part r <= n)%Z.
Proof.
  intros Hr. destruct (base_Int_part r) as [Hlo _].
  apply Z.lt_succ_r, lt_IZR. rewrite succ_IZR. lra.
Qed.

Lemma Int_part_IZR (n : Z) : Int_part (IZR n) = n.
Proof. symmetry. apply Int_part_spec. lra. Qed.

(** A positive number lies between the powers of two of its binade. *)
Lemma binade_spec (x : R) :
  0 < x -> powerRZ 2 (Rounded.binade x) <= x < powerRZ 2 (Rounded.binade x + 1).
Proof.
  intros Hx. unfold Rounded.binade. pose proof ln_2_pos as H2.
  destruct (base_Int_part (ln x / ln 2)) as [Hlo Hhi].
  set (e := Int_part (ln x / ln 2)) in *.
  assert (IZR e * ln 2 <= ln x < IZR (e + 1) * ln 2) as [Hl Hh].
  { rewrite plus_IZR. replace (ln x) with (ln x / ln 2 * ln 2) by (field; lra).
    nra. }
  rewrite <- !pow2_ln in Hl, Hh.
  apply exp_increasing in Hh. rewrite !exp_ln in Hh by (done || apply pow2_pos).
  split; [|done].
  destruct Hl as [Hl|Hl].
  - apply exp_increasing in Hl. rewrite !exp_ln in Hl by (done || apply pow2_pos).
    lra.
  - apply (f_equal exp) in Hl. rewrite !exp_ln in Hl by (done || apply pow2_pos).
    lra.
Qed.

Lemma binade_le (x y : R) : 0 < x -> x <= y -> (Rounded.binade x <= Rounded.binade y)%Z.
Proof.
  intros Hx Hxy. apply Int_part_le. pose proof ln_2_pos.
  pose proof (ln_le x y Hx Hxy).
  apply Rmult_le_compat_r; [left; by apply Rinv_0_lt_compat | done].
Qed.

Lemma binade_unique (x : R) (e : Z) :
  powerRZ 2 e <= x < powerRZ 2 (e + 1) -> Rounded.binade x = e.
Proof.
  intros [Hlo Hhi]. pose proof (pow2_pos e) as He. pose proof ln_2_pos as H2.
  assert (0 < x) as Hx by lra.
  symmetry. apply Int_part_spec.
  pose proof (ln_le _ _ He Hlo) as Hl.
  pose proof (ln_increasing _ _ Hx Hhi) as Hh.
  rewrite !pow2_ln, ?plus_IZR in *.
  assert (ln x = ln x / ln 2 * ln 2) as Hq by (field; lra).
  set (t := ln x / ln 2) in *. nra.
Qed.

Lemma nearest_cases (t : R) :
  (Rounded.nearest t = Int_part t /\ t - IZR (Int_part t) <= / 2)
  \/ (Rounded.nearest t = (Int_part t + 1)%Z /\ / 2 <= t - IZR (Int_part t)).
Proof.
  unfold Rounded.nearest. repeat destruct (Rlt_dec _ _); try (left; split; [done|lra]);
    try (right; split; [done|lra]).
  destruct (Z.even _); [left|right]; split; try done; lra.
Qed.

Lemma nearest_IZR (n : Z) : Rounded.nearest (IZR n) = n.
Proof.
  unfold Rounded.nearest. rewrite Int_part_IZR. destruct (Rlt_dec _ _); [done|lra].
Qed.

Lemma nearest_le (t u : R) : t <= u -> (Rounded.nearest t <= Rounded.nearest u)%Z.
Proof.
  intros Htu. pose proof (Int_part_le t u Htu) as Hfl.
  destruct (base_Int_part t) as [Ht1 Ht2], (base_Int_part u) as [Hu1 Hu2].
  unfold Rounded.nearest.
  destruct (Z.eq_dec (Int_part t) (Int_part u)) as [Heq|Hne].
  - rewrite <- Heq in *.
    repeat destruct (Rlt_dec _ _); try lia; try lra.
    all: try (destruct (Z.even _); lia).
  - repeat destruct (Rlt_dec _ _); repeat destruct (Z.even _); lia.
Qed.

Lemma nearest_ge_int (n : Z) (t : R) : IZR n <= t -> (n <= Rounded.nearest t)%Z.
Proof. intros Hn. rewrite <- (nearest_IZR n). by apply nearest_le. Qed.

Lemma nearest_le_int (n : Z) (t : R) : t <= IZR n -> (Rounded.nearest t <= n)%Z.
Proof. intros Hn. rewrite <- (nearest_IZR n). by apply nearest_le. Qed.

Lemma round_pos_nonneg (x : R) : 0 < x -> 0 <= Rounded.round_pos x.
Proof.
  intros Hx. unfold Rounded.round_pos.
  pose proof (pow2_pos (Rounded.last_place x)). pose proof (pow2_pos (- Rounded.last_place x)).
  assert (0 <= Rounded.nearest (x * powerRZ 2 (- Rounded.last_place x)))%Z as Hn.
  { apply nearest_ge_int. nra. }
  apply IZR_le in Hn. nra.
Qed.

Lemma pow2_cancel (q : Z) : powerRZ 2 (- q) * powerRZ 2 q = 1.
Proof. rewrite <- pow2_add. by replace (- q + q)%Z with 0%Z by lia. Qed.

Lemma round_pos_ge (x : R) :
  0 < x -> (-1022 <= Rounded.binade x)%Z -> powerRZ 2 (Rounded.binade x) <= Rounded.round_pos x.
Proof.
  intros Hx He. destruct (binade_spec x Hx) as [Hlo _].
  unfold Rounded.round_pos, Rounded.last_place. rewrite Z.max_l by lia.
  set (e := Rounded.binade x) in *. set (q := (e - 52)%Z).
  pose proof (pow2_pos q) as Hq. pose proof (pow2_pos (- q)) as Hq'.
  assert (2 ^ 52 <= Rounded.nearest (x * powerRZ 2 (- q)))%Z as Hn.
  { apply nearest_ge_int. rewrite <- pow2_IZR by lia.
    replace 52%Z with (e + - q)%Z by lia. rewrite pow2_add. nra. }
  apply IZR_le in Hn. rewrite <- pow2_IZR in Hn by lia.
  replace e with (52 + q)%Z at 1 by lia. rewrite pow2_add. nra.
Qed.

Lemma round_pos_le (x : R) :
  0 < x -> Rounded.round_pos x <= powerRZ 2 (Z.max (Rounded.binade x) (-1022) + 1).
Proof.
  intros Hx. destruct (binade_spec x Hx) as [_ Hhi].
  unfold Rounded.round_pos, Rounded.last_place.
  set (e := Z.max (Rounded.binade x) (-1022)). set (q := (e - 52)%Z).
  pose proof (pow2_pos q) as Hq. pose proof (pow2_pos (- q)) as Hq'.
  pose proof (pow2_le (Rounded.binade x + 1) (e + 1) ltac:(lia)) as Hle.
  assert (Rounded.nearest (x * powerRZ 2 (- q)) <= 2 ^ 53)%Z as Hn.
  { apply nearest_le_int. rewrite <- pow2_IZR by lia.
    replace 53%Z with (e + 1 + - q)%Z by lia. rewrite pow2_add. nra. }
  apply IZR_le in Hn. rewrite <- pow2_IZR in Hn by lia.
  replace (e + 1)%Z with (53 + q)%Z by lia. rewrite pow2_add. nra.
Qed.

(** Rounding is monotone: within a binade the nearest multiple of the last
    place is, and a power of two separates two binades. *)
Lemma round_pos_mono (x y : R) : 0 < x -> x <= y -> Rounded.round_pos x <= Rounded.round_pos y.
Proof.
  intros Hx Hxy. assert (0 < y) as Hy by lra.
  pose proof (binade_le x y Hx Hxy) as He.
  destruct (Z.eq_dec (Rounded.last_place x) (Rounded.last_place y)) as [Heq|Hne].
  - unfold Rounded.round_pos. rewrite <- Heq.
    pose proof (pow2_pos (Rounded.last_place x)). pose proof (pow2_pos (- Rounded.last_place x)).
    apply Rmult_le_compat_r; [lra|]. apply IZR_le, nearest_le. nra.
  - unfold Rounded.last_place in Hne.
    eapply Rle_trans; [by apply round_pos_le|].
    eapply Rle_trans; [|apply round_pos_ge; [done|lia]].
    apply pow2_le. lia.
Qed.

Lemma round64_nonneg (x : R) : 0 <= x -> 0 <= Rounded.round64 x.
Proof.
  intros Hx. unfold Rounded.round64. destruct (Rlt_dec 0 x); [by apply round_pos_nonneg|].
  destruct (Rlt_dec x 0); lra.
Qed.

Lemma round64_mono (x y : R) : x <= y -> Rounded.round64 x <= Rounded.round64 y.
Proof.
  intros Hxy. unfold Rounded.round64.
  destruct (Rlt_dec 0 x), (Rlt_dec 0 y); try lra.
  - by apply round_pos_mono.
  - destruct (Rlt_dec x 0).
    + pose proof (round_pos_nonneg (- x)). pose proof (round_pos_nonneg y). lra.
    + by apply round_pos_nonneg.
  - destruct (Rlt_dec x 0), (Rlt_dec y 0); try lra.
    + apply Ropp_le_contravar, round_pos_mono; lra.
    + pose proof (round_pos_nonneg (- x)). lra.
Qed.

(** A number from 1 up to the midpoint of 1 and the next float rounds to 1. *)
Lemma round64_one (x : R) : 1 <= x < 1 + powerRZ 2 (-53) -> Rounded.round64 x = 1.
Proof.
  intros [Hlo Hhi]. unfold Rounded.round64. destruct (Rlt_dec 0 x); [|lra].
  assert (powerRZ 2 (-53) < / 2) as H53.
  { pose proof (pow2_lt (-53) (-1) ltac:(lia)) as Hlt.
    change (powerRZ 2 (-1)) with (/ (2 * 1)) in Hlt. lra. }
  assert (Rounded.binade x = 0%Z) as He.
  { apply binade_unique. change (powerRZ 2 0) with 1.
    change (powerRZ 2 (0 + 1)) with (2 * 1). lra. }
  unfold Rounded.round_pos, Rounded.last_place. rewrite He.
  change (Z.max 0 (-1022) - 52)%Z with (-52)%Z. change (- -52)%Z with 52%Z.
  pose proof (pow2_cancel (-52)) as Hc. change (- -52)%Z with 52%Z in Hc.
  pose proof (pow2_pos 52) as H52. pose proof (pow2_pos (-52)) as H52'.
  assert (powerRZ 2 (-53) * powerRZ 2 52 = / 2) as Hhalf.
  { change (-53)%Z with (-1 + -52)%Z. rewrite pow2_add.
    change (powerRZ 2 (-1)) with (/ (2 * 1)). rewrite Rmult_assoc.
    rewrite (Rmult_comm (powerRZ 2 (-52))), Hc. lra. }
  assert (Rounded.nearest (x * powerRZ 2 52) = (2 ^ 52)%Z) as ->.
  { assert (Int_part (x * powerRZ 2 52) = (2 ^ 52)%Z) as Hf.
    { symmetry. apply Int_part_spec. rewrite <- pow2_IZR by lia. nra. }
    unfold Rounded.nearest. rewrite Hf, <- pow2_IZR by lia.
    destruct (Rlt_dec _ _) as [|Hn]; [done|]. exfalso. apply Hn. nra. }
  rewrite <- pow2_IZR by lia. lra.
Qed.


Lemma DBL_MAX_ge_1 : 1 <= Rounded.DBL_MAX.
Proof.
  unfold Rounded.DBL_MAX. pose proof (pow2_ge_1 971 ltac:(lia)).
  pose proof (pow2_le 1 53 ltac:(lia)) as H53.
  change (powerRZ 2 1) with (2 * 1) in H53. nra.
Qed.

(** [math.exp(0.0)] is [1.0], and so is [math.exp(2.0**-60)]. *)
Lemma math_exp_0 : Rounded.math_exp 0 = Return 1.
Proof.
  unfold Rounded.math_exp. rewrite exp_0. rewrite round64_one.
  - pose proof DBL_MAX_ge_1. by destruct (Rle_dec _ _).
  - pose proof (pow2_pos (-53)). lra.
Qed.



(** [ln 2] is at most 710/1024, since the exponential there is above 2. *)
Lemma ln_2_upper : ln 2 <= 710 / 1024.
Proof.
  assert (2 < exp (710 / 1024) < 2.001) as [Hlo _] by enclose_exp (710 / 1024).
  rewrite <- (ln_exp (710 / 1024)). apply ln_le; lra.
Qed.


Lemma math_exp_mono (c1 c2 x1 x2 : R) :
  c1 <= c2 -> Rounded.math_exp c1 = Return x1 -> Rounded.math_exp c2 = Return x2 -> x1 <= x2.
Proof.
  unfold Rounded.math_exp. intros Hc H1 H2.
  destruct (Rle_dec _ _); [|done]. destruct (Rle_dec _ _); [|done].
  injection H1 as <-. injection H2 as <-.
  apply round64_mono. destruct Hc as [Hc| ->]; [left; by apply exp_increasing|lra].
Qed.

(** [ln 2] is at least 709.5/1024. *)
Lemma ln_2_lower : 709.5 / 1024 <= ln 2.
Proof.
  assert (1.999 < exp (709.5 / 1024) < 2) as [_ Hhi] by enclose_exp (709.5 / 1024).
  rewrite <- (ln_exp (709.5 / 1024)). apply ln_le; [apply exp_pos|lra].
Qed.

Lemma exp_le (x y : R) : x <= y -> exp x <= exp y.
Proof. intros [Hlt| ->]; [left; by apply exp_increasing|lra]. Qed.

Lemma pow2_exp (n : Z) : powerRZ 2 n = exp (IZR n * ln 2).
Proof. rewrite powerRZ_Rpower by lra. reflexivity. Qed.

Lemma exp_709 : exp 709 * powerRZ 2 (-971) <= powerRZ 2 53 - 1.
Proof.
  pose proof ln_2_lower as Hln.
  assert (exp 709 <= 2 / 3 * powerRZ 2 1024) as Hexp.
  { replace 709 with (- / 2 + (709 + / 2)) by lra. rewrite exp_plus.
    pose proof (exp_ineq1_le (/ 2)) as Hhalf.
    pose proof (exp_pos (/ 2)) as Hpos.
    assert (exp (- / 2) <= 2 / 3) as Hneg.
    { rewrite exp_Ropp. replace (2 / 3) with (/ (3 / 2)) by lra.
      apply Rinv_le_contravar; lra. }
    pose proof (exp_pos (- / 2)) as Hpos'.
    assert (exp (709 + / 2) <= powerRZ 2 1024) as Hle.
    { rewrite pow2_exp. apply exp_le. lra. }
    pose proof (exp_pos (709 + / 2)). nra. }
  pose proof (pow2_pos (-971)) as Hq.
  assert (powerRZ 2 1024 * powerRZ 2 (-971) = powerRZ 2 53) as Hp.
  { rewrite <- pow2_add. reflexivity. }
  pose proof (pow2_le 2 53 ltac:(lia)) as H53.
  change (powerRZ 2 2) with (2 * (2 * 1)) in H53. nra.
Qed.

Lemma round_pos_DBL_MAX (x : R) : 0 < x -> x <= exp 709 -> Rounded.round_pos x <= Rounded.DBL_MAX.
Proof.
  intros Hx Hle.
  assert (Rounded.binade x <= 1023)%Z as He.
  { etransitivity; [by apply (binade_le x (exp 709))|].
    unfold Rounded.binade. rewrite ln_exp. apply Int_part_upper.
    pose proof ln_2_pos. pose proof ln_2_lower.
    apply Rmult_lt_reg_r with (ln 2); [done|].
    replace (709 / ln 2 * ln 2) with 709 by (field; lra). lra. }
  destruct (Z.eq_dec (Rounded.binade x) 1023%Z) as [Heq|Hne].
  - unfold Rounded.round_pos, Rounded.last_place, Rounded.DBL_MAX. rewrite Heq.
    change (Z.max 1023 (-1022) - 52)%Z with 971%Z.
    pose proof (pow2_pos 971). pose proof (pow2_pos (-971)).
    apply Rmult_le_compat_r; [lra|]. change (- (971))%Z with (-971)%Z.
    rewrite (pow2_IZR 53) by lia. rewrite <- minus_IZR. apply IZR_le, nearest_le_int.
    rewrite minus_IZR, <- (pow2_IZR 53) by lia. pose proof exp_709. nra.
  - eapply Rle_trans; [by apply round_pos_le|].
    eapply Rle_trans; [apply (pow2_le _ 1023); lia|].
    unfold Rounded.DBL_MAX. change 1023%Z with (52 + 971)%Z. rewrite pow2_add.
    pose proof (pow2_pos 971). apply Rmult_le_compat_r; [lra|].
    change 53%Z with (1 + 52)%Z. rewrite pow2_add.
    change (powerRZ 2 1) with (2 * 1). pose proof (pow2_ge_1 52 ltac:(lia)). lra.
Qed.

(** Up to 709 it is not. *)
Lemma math_exp_returns (c : R) :
  c <= 709 -> Rounded.math_exp c = Return (Rounded.round64 (exp c)).
Proof.
  intros Hc. unfold Rounded.math_exp. destruct (Rle_dec _ _) as [|Hn]; [done|].
  exfalso. apply Hn. unfold Rounded.round64. pose proof (exp_pos c).
  destruct (Rlt_dec 0 (exp c)); [|lra].
  apply round_pos_DBL_MAX; [done|]. by apply exp_le.
Qed.

Lemma math_exp_cases (c : R) :
  match Rounded.math_exp c with
  | Return x => x = Rounded.round64 (exp c)
  | Raise e => e = OverflowError /\ 709 < c
  end.
Proof.
  destruct (Rle_dec c 709) as [Hc|Hc].
  - by rewrite math_exp_returns.
  - unfold Rounded.math_exp. destruct (Rle_dec _ _); [done|]. split; [done|lra].
Qed.

Lemma nearest_small (t : R) : 0 <= t < / 2 -> Rounded.nearest t = 0%Z.
Proof.
  intros Ht. assert (Int_part t = 0%Z) as Hf.
  { symmetry. apply Int_part_spec. lra. }
  unfold Rounded.nearest. rewrite Hf. destruct (Rlt_dec _ _) as [|Hn]; [done|].
  exfalso. apply Hn. lra.
Qed.

(** From -746 down the exponential is below half the smallest float. *)
Lemma round64_underflow (c : R) : c <= -746 -> Rounded.round64 (exp c) = 0.
Proof.
  intros Hc. pose proof (exp_pos c) as Hp. pose proof ln_2_pos as H2.
  pose proof ln_2_upper as Hup.
  assert (exp c < powerRZ 2 (-1075)) as Hlt.
  { rewrite pow2_exp. apply exp_increasing. lra. }
  unfold Rounded.round64. destruct (Rlt_dec 0 (exp c)); [|lra].
  assert (Rounded.binade (exp c) <= -1022)%Z as He.
  { destruct (binade_spec (exp c) Hp) as [Hlo _].
    destruct (Z_le_gt_dec (Rounded.binade (exp c)) (-1022)) as [|Hgt]; [done|].
    pose proof (pow2_le (-1075) (Rounded.binade (exp c)) ltac:(lia)). lra. }
  unfold Rounded.round_pos, Rounded.last_place. rewrite Z.max_r by done.
  change (- (-1022 - 52))%Z with 1074%Z.
  rewrite nearest_small; [lra|].
  pose proof (pow2_pos 1074) as Hq.
  assert (powerRZ 2 (-1075) * powerRZ 2 1074 = / 2) as Hc2.
  { rewrite <- pow2_add. change (-1075 + 1074)%Z with (-1)%Z.
    change (powerRZ 2 (-1)) with (/ (2 * 1)). f_equal. lra. }
  nra.
Qed.

(** |Rounded.nearest t - t| <= 1/2 *)
Lemma nearest_error (t : R) : Rabs (IZR (Rounded.nearest t) - t) <= / 2.
Proof.
  destruct (base_Int_part t) as [Hlo Hhi].
  apply Rabs_le.
  destruct (nearest_cases t) as [[-> Hf]|[-> Hf]]; rewrite ?plus_IZR; lra.
Qed.

(** The relative error of rounding a number that is not subnormal. *)
Lemma round_pos_error (x : R) :
  0 < x -> (-1022 <= Rounded.binade x)%Z ->
  Rabs (Rounded.round_pos x - x) <= powerRZ 2 (-53) * x.
Proof.
  intros Hx He. destruct (binade_spec x Hx) as [Hlo _].
  unfold Rounded.round_pos, Rounded.last_place. rewrite Z.max_l by lia.
  set (e := Rounded.binade x) in *. set (q := (e - 52)%Z).
  pose proof (pow2_pos q) as Hq. pose proof (pow2_pos (- q)) as Hq'.
  pose proof (pow2_cancel q) as Hc.
  pose proof (nearest_error (x * powerRZ 2 (- q))) as Herr.
  set (n := IZR (Rounded.nearest (x * powerRZ 2 (- q)))) in *.
  replace (n * powerRZ 2 q - x) with ((n - x * powerRZ 2 (- q)) * powerRZ 2 q)
    by (rewrite Rmult_minus_distr_r, Rmult_assoc, Hc; ring).
  rewrite Rabs_mult, (Rabs_pos_eq (powerRZ 2 q)) by lra.
  assert (powerRZ 2 q = powerRZ 2 (-52) * powerRZ 2 e) as Hqe.
  { rewrite <- pow2_add. f_equal. lia. }
  assert (powerRZ 2 (-53) = / 2 * powerRZ 2 (-52)) as H53.
  { change (-53)%Z with (-1 + -52)%Z. rewrite pow2_add.
    change (powerRZ 2 (-1)) with (/ (2 * 1)). f_equal. f_equal. lra. }
  pose proof (pow2_pos (-52)). pose proof (Rabs_pos (n - x * powerRZ 2 (- q))).
  rewrite Hqe, H53. nra.
Qed.

Lemma math_exp_error (c : R) :
  -708 <= c <= 709 ->
  Rounded.math_exp c = Return (Rounded.round64 (exp c))
  /\ Rabs (Rounded.round64 (exp c) - exp c) <= powerRZ 2 (-53) * exp c.
Proof.
  intros [Hlo Hhi]. split; [by apply math_exp_returns|].
  pose proof (exp_pos c) as Hp. unfold Rounded.round64.
  destruct (Rlt_dec 0 (exp c)); [|lra].
  apply round_pos_error; [done|].
  unfold Rounded.binade. rewrite ln_exp, <- (Int_part_IZR (-1022)).
  apply Int_part_le. pose proof ln_2_pos. pose proof ln_2_lower.
  apply Rmult_le_reg_r with (ln 2); [done|].
  replace (c / ln 2 * ln 2) with c by (field; lra). nra.
Qed.


Section RoundedHelper.
Context `{Libraries}.

Lemma rounded_Return (k : kernel) (c x : R) :
  Rounded.math_exp c = Return x ->
  Rounded.coefficient_to_odds_ratio c k =
    (with_stdout
       (stdout k ++
        [Formatted "Those using financial aid are {:2f} times more likely to finish the 8th grade!" x]) k,
     Return PyNone).
Proof.
  intros Hx. unfold Rounded.coefficient_to_odds_ratio, mbind, M_bind, lift.
  by rewrite Hx.
Qed.

Lemma rounded_Raise (k : kernel) (c : R) (e : exn) :
  Rounded.math_exp c = Raise e ->
  Rounded.coefficient_to_odds_ratio c k = (k, Raise e).
Proof.
  intros He. unfold Rounded.coefficient_to_odds_ratio, mbind, M_bind, lift.
  by rewrite He.
Qed.

Lemma odds_printed_rounded (k : kernel) (c : R) :
  odds_printed (Rounded.coefficient_to_odds_ratio c) k =
    match Rounded.math_exp c with
    | Return x => Some x
    | Raise _ => None
    end.
Proof.
  unfold odds_printed. destruct (Rounded.math_exp c) as [e|x] eqn:E.
  - by rewrite (rounded_Raise k c e E).
  - rewrite (rounded_Return k c x E). simpl. by rewrite last_snoc.
Qed.


End RoundedHelper.


(** ** The worked examples *)

Section Worked.
Context `{Libraries}.

Lemma cell_ate_binds (k : kernel) : ate (cell_ate k).1 = Some (0.737151 - 0.604082).
Proof. reflexivity. Qed.

Lemma worked_odds : 1.27869 < 0.737151 / (1 - 0.737151) - 0.604082 / (1 - 0.604082) < 1.27870.
Proof. lra. Qed.

(** C5, as amended: in the worked example the cell binds [ate] to
    0.737151 - 0.604082 = 0.133069, and [ate_odds_ratio(0.604082, 0.737151)]
    computes 1.27869..., which is 1.2787 to four decimals. *)
Theorem worked_ate_and_odds (k : kernel) :
  exists a y,
    ate (cell_ate k).1 = Some a
    /\ approx 6 a 0.133069
    /\ odds_printed (ate_odds_ratio 0.604082 0.737151) k = Some y
    /\ approx 4 y 1.2787
    /\ 1.27869 < y < 1.27870.
Proof.
  eexists _, _. split; [apply cell_ate_binds|].
  split; [apply approx_intro; simpl; lra|].
  split; [apply odds_printed_ate; lra|].
  pose proof worked_odds.
  split; [apply approx_intro; simpl; lra | done].
Qed.

(** C6: [coefficient_to_odds_ratio] computes the exponential of its
    argument; at the naive coefficient 0.5773 this is 1.78122..., and at the
    second-stage coefficient 0.7743 it is 2.16907...: 1.7812 and 2.1690, each
    up to one unit of the fourth decimal. *)
Theorem coefficient_to_odds_ratio_worked (k : kernel) :
  (forall c, odds_printed (coefficient_to_odds_ratio c) k = Some (exp c))
  /\ (exists x, odds_printed (coefficient_to_odds_ratio 0.5773) k = Some x
                /\ approx 4 x 1.7812
                /\ 1.78122 < x < 1.78123)
  /\ (exists y, odds_printed (coefficient_to_odds_ratio 0.7743) k = Some y
                /\ approx 4 y 2.1690
                /\ 2.16907 < y < 2.16908).
Proof.
  split; [apply odds_printed_coefficient|].
  pose proof exp_naive_coefficient. pose proof exp_late_coefficient.
  split; eexists; (split; [apply odds_printed_coefficient|]);
    (split; [apply approx_intro; simpl; lra | done]).
Qed.

End Worked.

(** C5, as stated: the odds value of the worked example is not 1.2789 to
    four decimals. *)
Lemma worked_odds_not_1_2789 :
  ~ (exists a y,
       ate (cell_ate (H := sample_libraries) kernel0).1 = Some a
       /\ approx 6 a 0.133069
       /\ odds_printed (H := sample_libraries)
            (ate_odds_ratio 0.604082 0.737151) kernel0 = Some y
       /\ approx 4 y 1.2789).
Proof.
  intros (a & y & _ & _ & Hy & Happrox).
  rewrite odds_printed_ate in Hy by lra. injection Hy as <-.
  apply approx_elim in Happrox. simpl in Happrox.
  pose proof worked_odds. lra.
Qed.

(** ** Rules of the weakest precondition *)

Section Rules.
Context `{Libraries}.

Lemma wp_elim {A} (m : M A) Q E k k' o :
  m k = (k', o) -> wp m Q E k ->
  match o with Return a => Q a k' | Raise e => E e k' end.
Proof. unfold wp. by intros ->. Qed.

Lemma wp_completes {A} (m : M A) (Q : A -> kernel -> Prop) k :
  wp m Q (fun _ _ => False) k -> exists a, m k = ((m k).1, Return a) /\ Q a (m k).1.
Proof. unfold wp. destruct (m k) as [k' [e|a]]; [done|]. by exists a. Qed.

Lemma wp_ret {A} (a : A) Q E k : Q a k -> wp (mret a) Q E k.
Proof. done. Qed.

Lemma wp_bind {A B} (m : M A) (f : A -> M B) Q E k :
  wp m (fun a k' => wp (f a) Q E k') E k -> wp (m ≫= f) Q E k.
Proof. unfold wp, mbind, M_bind. by destruct (m k) as [k' [e|a]]. Qed.

Lemma wp_lift {A} (o : outcome A) Q E k :
  match o with Return a => Q a k | Raise e => E e k end -> wp (lift o) Q E k.
Proof. done. Qed.

Lemma wp_print l Q E k :
  Q tt (with_stdout (stdout k ++ [l]) k) -> wp (print l) Q E k.
Proof. done. Qed.

Lemma wp_display v Q E k :
  Q tt (with_displayed (displayed k ++ [v]) k) -> wp (display v) Q E k.
Proof. done. Qed.

Lemma wp_touch a Q E k :
  Q tt (with_accesses (accesses k ++ [a]) k) -> wp (touch a) Q E k.
Proof. done. Qed.

Lemma wp_the_frame Q E k :
  match voucher_df k with
  | Some df => Q df k
  | None => E (NameError "voucher_df") k
  end -> wp the_frame Q E k.
Proof. unfold wp, the_frame. by destruct (voucher_df k). Qed.

Lemma wp_the_ate Q E k :
  match ate k with
  | Some x => Q x k
  | None => E (NameError "ate") k
  end -> wp the_ate Q E k.
Proof. unfold wp, the_ate. by destruct (ate k). Qed.

Lemma wp_the_result Q E k :
  match result k with
  | Some r => Q r k
  | None => E (NameError "result") k
  end -> wp the_result Q E k.
Proof. unfold wp, the_result. by destruct (result k). Qed.

Lemma wp_assign_voucher_df df Q E k :
  Q tt (with_voucher_df df k) -> wp (assign_voucher_df df) Q E k.
Proof. done. Qed.

Lemma wp_assign_ate x Q E k : Q tt (with_ate x k) -> wp (assign_ate x) Q E k.
Proof. done. Qed.

Lemma wp_assign_result r Q E k :
  Q tt (with_result r k) -> wp (assign_result r) Q E k.
Proof. done. Qed.

Lemma wp_summary clock r Q E k :
  Q (Summary r (clock (clock_reads k))) (with_clock_reads (S (clock_reads k)) k) ->
  wp (summary clock r) Q E k.
Proof. done. Qed.

Lemma wp_mapM_nil {A B} (f : A -> M B) Q E k : Q [] k -> wp (mapM f []) Q E k.
Proof. done. Qed.

Lemma wp_mapM_cons {A B} (f : A -> M B) x l Q E k :
  wp (f x ≫= fun y => mapM f l ≫= fun ys => mret (y :: ys)) Q E k ->
  wp (mapM f (x :: l)) Q E k.
Proof. done. Qed.

End Rules.

(** Normal form of a kernel after a step. *)
Ltac kernel_simpl :=
  cbv [with_voucher_df with_ate with_result with_stdout with_displayed
       with_accesses with_clock_reads kernel0
       naive_formula first_stage_formula second_stage_formula];
  cbn [voucher_df ate result stdout displayed accesses clock_reads
       nrows columns fst snd lhs rhs exog params report app seq].

Ltac head_of t :=
  lazymatch t with
  | ?f _ => head_of f
  | _ => t
  end.

(** One step of symbolic execution; [split] says what to do with a library
    call or a lookup whose result decides how the cell goes on. *)
Ltac wp_step_with split :=
  lazymatch goal with
  | |- wp (mbind _ _) _ _ _ => apply wp_bind
  | |- wp (mret _) _ _ _ => apply wp_ret
  | |- wp (lift _) _ _ _ => apply wp_lift
  | |- wp (print _) _ _ _ => apply wp_print
  | |- wp (display _) _ _ _ => apply wp_display
  | |- wp (touch _) _ _ _ => apply wp_touch
  | |- wp the_frame _ _ _ => apply wp_the_frame
  | |- wp the_ate _ _ _ => apply wp_the_ate
  | |- wp the_result _ _ _ => apply wp_the_result
  | |- wp (assign_voucher_df _) _ _ _ => apply wp_assign_voucher_df
  | |- wp (assign_ate _) _ _ _ => apply wp_assign_ate
  | |- wp (assign_result _) _ _ _ => apply wp_assign_result
  | |- wp (summary _ _) _ _ _ => apply wp_summary
  | |- wp (mapM _ []) _ _ _ => apply wp_mapM_nil
  | |- wp (mapM _ (_ :: _)) _ _ _ => apply wp_mapM_cons
  | |- wp (match ?x with _ => _ end) _ _ _ => split x
  | |- match truediv ?a ?b with _ => _ end =>
      rewrite (truediv_Return a b) by lra
  | |- match ?x with _ => _ end => split x
  | |- wp ?m _ _ _ => let h := head_of m in unfold h
  end; kernel_simpl; cbn beta.

(** For any libraries: a result the context knows is used, a lookup in the
    table after the assignment is moved to the table before it, and anything
    else is split into its cases. *)
Ltac wp_cases x :=
  first [ match goal with Hx : x = _ |- _ => rewrite Hx end
        | rewrite lookup_insert_eq
        | rewrite lookup_insert_ne by done
        | destruct x eqn:? ].

(** For given libraries and a given table: the result is computed. *)
Ltac is_value v :=
  lazymatch v with
  | Return _ => idtac
  | Raise _ => idtac
  | Some _ => idtac
  | None => idtac
  | left _ => idtac
  | right _ => idtac
  end.

Ltac wp_compute x :=
  first
    [ rewrite lookup_insert_eq
    | rewrite lookup_insert_ne by done
    | let v := eval hnf in x in is_value v; change x with v; cbv beta iota
    | let v := eval cbn in x in progress (change x with v); cbv beta iota ].

Ltac wp_run := repeat wp_step_with wp_cases.
Ltac wp_exec := repeat wp_step_with wp_compute.

(** ** The fitted probabilities *)

Section Pipeline.
Context `{Libraries}.

Lemma expit_unit (z : R) : 0 < expit z < 1.
Proof.
  unfold expit. pose proof (exp_pos (- z)) as Hexp. split.
  - apply Rdiv_lt_0_compat; lra.
  - apply (Rmult_lt_reg_r (1 + exp (- z))); [lra|]. field_simplify; lra.
Qed.

Lemma predict_unit (r : GLMResults) (fitted : list R) :
  predict r = Return fitted ->
  length fitted = length (exog r) /\ Forall (fun p => 0 < p < 1) fitted.
Proof.
  unfold predict. generalize (exog r). intros rows. revert fitted.
  induction rows as [|row rows IH]; intros fitted Hfit; simpl in Hfit.
  - injection Hfit as <-. by split.
  - cbn [mbind outcome_bind mret outcome_ret] in Hfit.
    destruct (dot row (params r)) as [e|eta]; [done|].
    destruct (mapM _ rows) as [e|rest]; [done|].
    injection Hfit as <-. destruct (IH rest eq_refl) as [Hlen Hall].
    split; [simpl; by rewrite Hlen|].
    constructor; [apply expit_unit | done].
Qed.

Lemma cell_first_stage_spec (clock : nat -> timestamp) (k : kernel) :
  wp (cell_first_stage clock)
    (fun _ k' => exists df v,
       voucher_df k = Some df
       /\ voucher_df k' =
            Some (Frame (nrows df) (<["use_fin_aid_fitted" := v]> (columns df)))
       /\ length v = nrows df
       /\ Forall (fun p => 0 < p < 1) v)
    (fun _ k' => voucher_df k' = voucher_df k)
    k.
Proof.
  wp_run; try done.
  eexists _, _. split; [done|]. split; [done|]. split; [done|].
  eapply predict_unit. eassumption.
Qed.

(** C7: when the first-stage cell completes, the column
    [use_fin_aid_fitted] it stored holds one fitted probability per row of
    the table, each strictly between 0 and 1. *)
Theorem first_stage_fitted_in_unit_interval
    (clock : nat -> timestamp) (k k' : kernel) :
  cell_first_stage clock k = (k', Return tt) ->
  exists df col,
    voucher_df k' = Some df
    /\ columns df !! "use_fin_aid_fitted" = Some col
    /\ length col = nrows df
    /\ Forall (fun p => 0 < p < 1) col.
Proof.
  intros Hrun.
  destruct (wp_elim _ _ _ _ _ _ Hrun (cell_first_stage_spec clock k))
    as (df & v & _ & Hdf & Hlen & Hunit).
  eexists _, v. split; [exact Hdf|]. simpl.
  by rewrite lookup_insert_eq.
Qed.

(** ** The table across a run *)

Lemma run_all_spec (clock : nat -> timestamp) (df0 : DataFrame) :
  read_sas "colvoucher.sas7bdat" = Return df0 ->
  wp (run_all clock)
    (fun _ k' => exists v,
       voucher_df k' =
         Some (Frame (nrows df0) (<["use_fin_aid_fitted" := v]> (columns df0)))
       /\ accesses k' = log_before ++ Write "use_fin_aid_fitted" :: log_after)
    (fun _ k' =>
       (voucher_df k' = Some df0 /\ writes (accesses k') = [])
       \/ (exists v,
             voucher_df k' =
               Some (Frame (nrows df0) (<["use_fin_aid_fitted" := v]> (columns df0)))
             /\ writes (accesses k') = ["use_fin_aid_fitted"]))
    kernel0.
Proof.
  intros Hfile. wp_run.
  all: try (left; split; reflexivity).
  all: try (right; eexists; split; reflexivity).
  eexists. split; reflexivity.
Qed.

Lemma frame_of_insert (df0 : DataFrame) (v : list R) :
  exists df',
    Some (Frame (nrows df0) (<["use_fin_aid_fitted" := v]> (columns df0))) = Some df'
    /\ nrows df' = nrows df0
    /\ forall c, c <> "use_fin_aid_fitted" -> columns df' !! c = columns df0 !! c.
Proof.
  eexists. split; [done|]. split; [done|].
  intros c Hc. simpl. by rewrite lookup_insert_ne.
Qed.

(** C8: from the load to the end of a run, whether it completes or stops at
    an exception, the table bound to [voucher_df] keeps its rows and every
    column other than [use_fin_aid_fitted] as loaded, and the only column
    ever assigned is [use_fin_aid_fitted], at most once.  In a complete run
    it is assigned exactly once; the accesses before are the reads of
    [log_before], the accesses after are the reads of [log_after], among
    them the read of the new column by the second-stage fit. *)
Theorem table_only_gains_fitted_column
    (clock : nat -> timestamp) (df0 : DataFrame) (k' : kernel) (o : outcome unit) :
  read_sas "colvoucher.sas7bdat" = Return df0 ->
  run_all clock kernel0 = (k', o) ->
  (exists df',
      voucher_df k' = Some df'
      /\ nrows df' = nrows df0
      /\ forall c, c <> "use_fin_aid_fitted" -> columns df' !! c = columns df0 !! c)
  /\ (writes (accesses k') = [] \/ writes (accesses k') = ["use_fin_aid_fitted"])
  /\ (o = Return tt ->
      accesses k' = log_before ++ Write "use_fin_aid_fitted" :: log_after
      /\ writes (accesses k') = ["use_fin_aid_fitted"]
      /\ writes log_before = []
      /\ writes log_after = []
      /\ Read "use_fin_aid_fitted" ∈ log_after).
Proof.
  intros Hfile Hrun.
  pose proof (wp_elim _ _ _ _ _ _ Hrun (run_all_spec clock df0 Hfile)) as Hspec.
  destruct o as [e|[]].
  - split; [|split; [|done]].
    + destruct Hspec as [[-> _]|(v & -> & _)]; [|apply frame_of_insert].
      exists df0. by repeat split.
    + destruct Hspec as [[_ ->]|(v & _ & ->)]; auto.
  - destruct Hspec as (v & -> & ->).
    split; [apply frame_of_insert|]. split; [by right|].
    intros _. repeat split. unfold log_after. set_solver.
Qed.

End Pipeline.

(** ** Two runs at different times *)

Section Agreement.
Context `{Libraries}.

Ltac agree_prim :=
  intros [] [] [Hout Hacc]; unfold outputs_of in Hout; simplify_eq/=;
  repeat case_match; simplify_eq/=;
  unfold sim, outputs_of; simpl; rewrite ?fmap_app; simpl;
  repeat split; congruence.

Lemma agree_ret {A} (a : A) : agree eq (mret a) (mret a).
Proof. agree_prim. Qed.

Lemma agree_lift {A} (o : outcome A) : agree eq (lift o) (lift o).
Proof. unfold lift. destruct o; agree_prim. Qed.

Lemma agree_print l1 l2 :
  report_of l1 = report_of l2 -> agree eq (print l1) (print l2).
Proof. intros Hl. agree_prim. Qed.

Lemma agree_display v : agree eq (display v) (display v).
Proof. agree_prim. Qed.

Lemma agree_touch a : agree eq (touch a) (touch a).
Proof. agree_prim. Qed.

Lemma agree_the_frame : agree eq the_frame the_frame.
Proof. unfold the_frame. agree_prim. Qed.

Lemma agree_the_ate : agree eq the_ate the_ate.
Proof. unfold the_ate. agree_prim. Qed.

Lemma agree_the_result : agree eq the_result the_result.
Proof. unfold the_result. agree_prim. Qed.

Lemma agree_assign_voucher_df df :
  agree eq (assign_voucher_df df) (assign_voucher_df df).
Proof. agree_prim. Qed.

Lemma agree_assign_ate x : agree eq (assign_ate x) (assign_ate x).
Proof. agree_prim. Qed.

Lemma agree_assign_result r : agree eq (assign_result r) (assign_result r).
Proof. agree_prim. Qed.

(** The one place where the two runs differ: the stamp. *)
Lemma agree_summary clock1 clock2 r :
  agree (fun s1 s2 => report_of s1 = report_of s2)
    (summary clock1 r) (summary clock2 r).
Proof. agree_prim. Qed.

Lemma agree_bind {A B} (R : A -> A -> Prop) (S : B -> B -> Prop)
    (m1 m2 : M A) (f1 f2 : A -> M B) :
  agree R m1 m2 -> (forall a b, R a b -> agree S (f1 a) (f2 b)) ->
  agree S (m1 ≫= f1) (m2 ≫= f2).
Proof.
  intros Hm Hf k1 k2 Hsim. specialize (Hm k1 k2 Hsim).
  unfold mbind, M_bind.
  destruct (m1 k1) as [k1' [e1|a]], (m2 k2) as [k2' [e2|b]]; try done.
  destruct Hm as [Hsim' HR]. by apply Hf.
Qed.

Lemma agree_mapM {A B} (f : A -> M B) (l : list A) :
  (forall a, agree eq (f a) (f a)) -> agree eq (mapM f l) (mapM f l).
Proof.
  intros Hf. induction l as [|x l IH]; simpl.
  - apply agree_ret.
  - eapply agree_bind; [apply Hf|]. intros y ? <-.
    eapply agree_bind; [apply IH|]. intros ys ? <-. apply agree_ret.
Qed.

End Agreement.

Ltac agree_run :=
  lazymatch goal with
  | |- agree _ (mbind _ _) (mbind _ _) =>
      eapply agree_bind;
      [agree_run | intros ? ? ?; cbv beta in *; subst; agree_run]
  | |- agree _ (mret _) (mret _) => apply agree_ret
  | |- agree _ (lift _) (lift _) => apply agree_lift
  | |- agree _ (print _) (print _) => apply agree_print; done
  | |- agree _ (display _) (display _) => apply agree_display
  | |- agree _ (touch _) (touch _) => apply agree_touch
  | |- agree _ the_frame the_frame => apply agree_the_frame
  | |- agree _ the_ate the_ate => apply agree_the_ate
  | |- agree _ the_result the_result => apply agree_the_result
  | |- agree _ (assign_voucher_df _) _ => apply agree_assign_voucher_df
  | |- agree _ (assign_ate _) _ => apply agree_assign_ate
  | |- agree _ (assign_result _) _ => apply agree_assign_result
  | |- agree _ (summary _ _) (summary _ _) => apply agree_summary
  | |- agree _ (mapM _ _) (mapM _ _) => apply agree_mapM; intros ?; agree_run
  | |- agree _ (match ?x with _ => _ end) (match ?x with _ => _ end) =>
      destruct x; agree_run
  | |- agree _ ?m _ => let h := head_of m in unfold h; agree_run
  end.

Section Determinism.
Context `{Libraries}.

Lemma run_all_agree (clock1 clock2 : nat -> timestamp) :
  agree eq (run_all clock1) (run_all clock2).
Proof. agree_run. Qed.

End Determinism.

(** ** The cells on the sample *)

Lemma stamps_of_stdout `{Libraries} (k1 k2 : kernel) :
  stdout k1 = stdout k2 -> stamps k1 = stamps k2.
Proof. unfold stamps. by intros ->. Qed.

Section Sample.
#[local] Existing Instance sample_libraries.

Lemma returned (x : kernel * outcome unit) :
  x.2 = Return tt -> x = (x.1, Return tt).
Proof. destruct x as [k o]. simpl. by intros ->. Qed.

Lemma sample_first_stage_completes :
  cell_first_stage morning loaded = ((cell_first_stage morning loaded).1, Return tt).
Proof. apply returned. reflexivity. Qed.

(** On the sample the notebook runs to its end, assigns the new column once,
    and stamps its three summaries with the three readings of the clock. *)
Lemma sample_run (clock : nat -> nat) :
  wp (run_all clock)
    (fun _ k' =>
       writes (accesses k') = ["use_fin_aid_fitted"]
       /\ stamps k' = [clock 0%nat; clock 1%nat; clock 2%nat])
    (fun _ _ => False)
    kernel0.
Proof. wp_exec. by split. Qed.

Lemma sample_run_completes (clock : nat -> nat) :
  run_all clock kernel0 = ((run_all clock kernel0).1, Return tt).
Proof. by destruct (wp_completes _ _ _ (sample_run clock)) as ([] & Hrun & _). Qed.

(** A morning run and an evening run do differ in what they print. *)
Lemma sample_runs_differ :
  stdout (run_all morning kernel0).1 <> stdout (run_all evening kernel0).1.
Proof.
  destruct (wp_completes _ _ _ (sample_run morning)) as (_ & _ & _ & Hm).
  destruct (wp_completes _ _ _ (sample_run evening)) as (_ & _ & _ & He).
  intros Heq. apply stamps_of_stdout in Heq. rewrite Hm, He in Heq.
  discriminate Heq.
Qed.

End Sample.

(** ** The recorded output, on binary64 floats *)

Set Warnings "-inexact-float".

(** The float arithmetic of the helper gives, bit for bit, the number of the
    output cell [Odds ratio: 1.2786901424379509]. *)
Lemma binary64_worked_odds :
  Binary64.ate_odds_ratio 0.604082%float 0.737151%float
  = Return Binary64.recorded_odds.
Proof. vm_compute. reflexivity. Qed.

Lemma binary64_recorded_odds :
  exists q : Q,
    Binary64.to_Q Binary64.recorded_odds = Some q
    /\ (1.27869 < q)%Q /\ (q < 1.27870)%Q.
Proof. eexists. split; [vm_compute; reflexivity|]. split; reflexivity. Qed.

(** A float probability of 1 makes the divisor [1 - 1.0] zero, and Python
    raises instead of dividing. *)
Lemma binary64_raises_at_one :
  Binary64.ate_odds_ratio 0.5%float 1%float = Raise ZeroDivisionError
  /\ Binary64.ate_odds_ratio 1%float 0.5%float = Raise ZeroDivisionError.
Proof. split; vm_compute; reflexivity. Qed.

(** ** Instances of the theorems *)

Lemma ate_odds_ratio_formula_witness :
  0 < 1 / 4 < 1 /\ 0 < 1 / 2 < 1
  /\ odds_printed (H := sample_libraries) (ate_odds_ratio (1 / 4) (1 / 2)) kernel0
     = Some ((1 / 2) / (1 - 1 / 2) - (1 / 4) / (1 - 1 / 4)).
Proof.
  assert (H0 : 0 < 1 / 4 < 1) by lra.
  assert (H1 : 0 < 1 / 2 < 1) by lra.
  split; [exact H0|]. split; [exact H1|].
  exact (proj2 (ate_odds_ratio_formula (H := sample_libraries) kernel0 _ _ H0 H1)).
Defined.

Lemma ate_odds_ratio_raises_at_one_witness :
  ate_odds_ratio (H := sample_libraries) (1 / 2) 1 kernel0
  = (kernel0, Raise ZeroDivisionError).
Proof.
  exact (proj1 (ate_odds_ratio_raises_at_one (H := sample_libraries)
                  kernel0 (1 / 2) 1 (or_intror eq_refl))).
Defined.


Lemma ate_odds_ratio_monotone_witness :
  exists x y,
    odds_printed (H := sample_libraries) (ate_odds_ratio (1 / 2) 0.604082) kernel0
    = Some x
    /\ odds_printed (H := sample_libraries) (ate_odds_ratio (1 / 2) 0.737151) kernel0
       = Some y
    /\ x < y.
Proof.
  refine (proj1 (ate_odds_ratio_monotone (H := sample_libraries) kernel0
                   (1 / 2) 0.604082 0.737151 _ _ _ _)); lra.
Defined.

Lemma first_stage_fitted_in_unit_interval_witness :
  exists df col,
    voucher_df (cell_first_stage (H := sample_libraries) morning loaded).1 = Some df
    /\ columns df !! "use_fin_aid_fitted" = Some col
    /\ length col = nrows df
    /\ Forall (fun p => 0 < p < 1) col.
Proof.
  apply (first_stage_fitted_in_unit_interval (H := sample_libraries) morning loaded).
  apply sample_first_stage_completes.
Defined.

Lemma table_only_gains_fitted_column_witness :
  accesses (run_all (H := sample_libraries) morning kernel0).1
  = log_before ++ Write "use_fin_aid_fitted" :: log_after.
Proof.
  refine (proj1 (proj2 (proj2
    (table_only_gains_fitted_column (H := sample_libraries) morning sample_frame
       (run_all (H := sample_libraries) morning kernel0).1 (Return tt) eq_refl _))
    eq_refl)).
  apply sample_run_completes.
Defined.

(** ** More on the helper functions *)

Section MoreHelpers.
Context `{Libraries}.

(** X1: [ate_odds_ratio] checks nothing about its arguments: it raises
    ZeroDivisionError exactly when one of them equals 1, and returns None for
    every other pair of numbers, 0, negative numbers and numbers above 1
    included. *)
Theorem ate_odds_ratio_raises_iff (k : kernel) (p0 p1 : R) :
  ((ate_odds_ratio p0 p1 k).2 = Raise ZeroDivisionError <-> p0 = 1 \/ p1 = 1)
  /\ ((ate_odds_ratio p0 p1 k).2 = Return PyNone <-> p0 <> 1 /\ p1 <> 1).
Proof.
  destruct (decide (p0 = 1 \/ p1 = 1)) as [Hone|Hnone].
  - rewrite (ate_odds_ratio_Raise k p0 p1 Hone). simpl.
    split; split; try done. intros [? ?]. tauto.
  - assert (p0 <> 1 /\ p1 <> 1) as [H0 H1] by tauto.
    rewrite (ate_odds_ratio_Return k p0 p1 H0 H1). simpl.
    split; split; try done.
Qed.


(** X3: under rounding, a call of [coefficient_to_odds_ratio] returns None
    after printing one line with a factor that is never negative, at least 1
    for a coefficient that is not negative and at most 1 for one that is
    not positive, and exactly 0 from -746 down; or it raises the
    [OverflowError] of [math.exp] and leaves the kernel as it was, which
    happens only above 709. *)
Theorem coefficient_to_odds_ratio_range (k : kernel) (c : R) :
  match Rounded.coefficient_to_odds_ratio c k with
  | (k', Return v) =>
      v = PyNone
      /\ exists x,
           k' = with_stdout (stdout k ++ [Formatted odds_template x]) k
           /\ 0 <= x /\ (0 <= c -> 1 <= x) /\ (c <= 0 -> x <= 1)
           /\ (c <= -746 -> x = 0)
  | (k', Raise e) => k' = k /\ e = OverflowError /\ 709 < c
  end.
Proof.
  pose proof (math_exp_cases c) as Hc.
  destruct (Rounded.math_exp c) as [e|x] eqn:E.
  - rewrite (rounded_Raise k c e E). by destruct Hc.
  - rewrite (rounded_Return k c x E). split; [done|]. exists x.
    pose proof math_exp_0 as H0. repeat split.
    + subst x. apply round64_nonneg. left. apply exp_pos.
    + intros Hpos. by apply (math_exp_mono 0 c).
    + intros Hneg. by apply (math_exp_mono c 0).
    + intros Hlow. subst x. by apply round64_underflow.
Qed.


(** The worked values of the notebook, under rounding. *)
Lemma coefficient_to_odds_ratio_rounded_worked (k : kernel) :
  (exists x, odds_printed (Rounded.coefficient_to_odds_ratio 0.5773) k = Some x
             /\ approx 4 x 1.7812)
  /\ (exists y, odds_printed (Rounded.coefficient_to_odds_ratio 0.7743) k = Some y
                /\ approx 4 y 2.1690).
Proof.
  assert (powerRZ 2 (-53) <= / 1000000) as Hsmall.
  { eapply Rle_trans; [apply (pow2_le _ (-20)); lia|].
    change (powerRZ 2 (-20)) with (/ 2 ^ 20). lra. }
  pose proof (pow2_pos (-53)) as Hpos.
  rewrite !odds_printed_rounded. split.
  - destruct (math_exp_error 0.5773 ltac:(lra)) as [-> Herr].
    eexists. split; [done|]. pose proof exp_naive_coefficient.
    apply approx_intro. simpl.
    pose proof (Rle_abs (Rounded.round64 (exp 0.5773) - exp 0.5773)) as Hle.
    pose proof (Rle_abs (- (Rounded.round64 (exp 0.5773) - exp 0.5773))) as Hge.
    rewrite Rabs_Ropp in Hge. nra.
  - destruct (math_exp_error 0.7743 ltac:(lra)) as [-> Herr].
    eexists. split; [done|]. pose proof exp_late_coefficient.
    apply approx_intro. simpl.
    pose proof (Rle_abs (Rounded.round64 (exp 0.7743) - exp 0.7743)) as Hle.
    pose proof (Rle_abs (- (Rounded.round64 (exp 0.7743) - exp 0.7743))) as Hge.
    rewrite Rabs_Ropp in Hge. nra.
Qed.

End MoreHelpers.

(** X5: on binary64 floats, whatever the other argument is (infinities and
    NaN included), an argument equal to 1.0 makes [ate_odds_ratio] raise
    ZeroDivisionError. *)
Theorem binary64_raises_at_one_any (p : float) :
  Binary64.ate_odds_ratio p 1%float = Raise ZeroDivisionError
  /\ Binary64.ate_odds_ratio 1%float p = Raise ZeroDivisionError.
Proof.
  split; [reflexivity|].
  unfold Binary64.ate_odds_ratio, Binary64.truediv.
  destruct (PrimFloat.eqb (1 - p) 0); reflexivity.
Qed.

(** ** When the notebook runs to its end *)

Section Completion.
Context `{Libraries}.

Lemma two_stage_spec (clock : nat -> timestamp) (df0 : DataFrame) :
  read_sas "colvoucher.sas7bdat" = Return df0 ->
  wp (run_all clock)
    (fun _ k' => exists y t z m a beta1 rep1 fitted beta2 rep2 c,
       columns df0 !! "finish8th" = Some y
       /\ columns df0 !! "use_fin_aid" = Some t
       /\ columns df0 !! "won_lottry" = Some z
       /\ columns df0 !! "male" = Some m
       /\ columns df0 !! "base_age" = Some a
       /\ glm_fit (design_matrix (nrows df0) [z; m; a]) t = Return (beta1, rep1)
       /\ predict (Results (design_matrix (nrows df0) [z; m; a]) beta1 rep1)
          = Return fitted
       /\ columns <$> voucher_df k' = Some (<["use_fin_aid_fitted" := fitted]> (columns df0))
       /\ glm_fit (design_matrix (nrows df0) [fitted; m; a]) y = Return (beta2, rep2)
       /\ result k' = Some (Results (design_matrix (nrows df0) [fitted; m; a]) beta2 rep2)
       /\ beta2 !! 1%nat = Some c
       /\ last (stdout k') = Some (Formatted odds_template (exp c)))
    (fun _ _ => True)
    kernel0.
Proof.
  intros Hfile. wp_run; try done.
  repeat match goal with p : (_ * _)%type |- _ => destruct p end.
  unfold params_1 in *. simpl in *.
  repeat match goal with
         | Hx : match ?o with Some _ => _ | None => _ end = Return _ |- _ =>
             destruct o eqn:?; simplify_eq
         end.
  do 11 eexists. repeat (split; [eassumption || reflexivity|]). reflexivity.
Qed.


(** X7: in a complete run the second stage is fitted on the first stage's
    prediction: the first fit regresses [use_fin_aid] on [won_lottry],
    [male] and [base_age]; its fitted values are stored as
    [use_fin_aid_fitted] and are the first regressor of the fit of
    [finish8th] that [result] is bound to at the end; the last line printed
    is formatted from the exponential of that fit's coefficient 1. *)
Theorem second_stage_uses_first_stage_fit
    (clock : nat -> timestamp) (df0 : DataFrame) (k' : kernel) :
  read_sas "colvoucher.sas7bdat" = Return df0 ->
  run_all clock kernel0 = (k', Return tt) ->
  exists y t z m a beta1 rep1 fitted beta2 rep2 c,
    columns df0 !! "finish8th" = Some y
    /\ columns df0 !! "use_fin_aid" = Some t
    /\ columns df0 !! "won_lottry" = Some z
    /\ columns df0 !! "male" = Some m
    /\ columns df0 !! "base_age" = Some a
    /\ glm_fit (design_matrix (nrows df0) [z; m; a]) t = Return (beta1, rep1)
    /\ predict (Results (design_matrix (nrows df0) [z; m; a]) beta1 rep1)
       = Return fitted
    /\ columns <$> voucher_df k' = Some (<["use_fin_aid_fitted" := fitted]> (columns df0))
    /\ glm_fit (design_matrix (nrows df0) [fitted; m; a]) y = Return (beta2, rep2)
    /\ result k' = Some (Results (design_matrix (nrows df0) [fitted; m; a]) beta2 rep2)
    /\ beta2 !! 1%nat = Some c
    /\ last (stdout k') = Some (Formatted odds_template (exp c)).
Proof.
  intros Hfile Hrun.
  exact (wp_elim _ _ _ _ _ _ Hrun (two_stage_spec clock df0 Hfile)).
Qed.

(** ** Running the first stage again *)

Lemma first_stage_twice (clock1 clock2 : nat -> timestamp) (k : kernel) :
  wp (cell_first_stage clock1)
    (fun _ k1 =>
       wp (cell_first_stage clock2)
         (fun _ k2 => voucher_df k2 = voucher_df k1 /\ result k2 = result k1)
         (fun _ _ => False)
         k1)
    (fun _ _ => True)
    k.
Proof.
  wp_run; try done.
  rewrite insert_insert_eq. done.
Qed.

(** X8: when the first-stage cell has completed, running it again
    completes too and leaves the same table and the same fit: the column is
    overwritten with the values it already has. *)
Theorem first_stage_rerun (clock1 clock2 : nat -> timestamp) (k k1 : kernel) :
  cell_first_stage clock1 k = (k1, Return tt) ->
  exists k2,
    cell_first_stage clock2 k1 = (k2, Return tt)
    /\ voucher_df k2 = voucher_df k1
    /\ result k2 = result k1.
Proof.
  intros Hrun.
  pose proof (wp_elim _ _ _ _ _ _ Hrun (first_stage_twice clock1 clock2 k)) as Hagain.
  destruct (wp_completes _ _ _ Hagain) as ([] & Hrun2 & Hsame).
  eauto.
Qed.

(** ** Well-formed tables *)

Lemma well_formed_insert (df : DataFrame) (c : string) (v : list R) :
  well_formed df -> length v = nrows df ->
  well_formed (Frame (nrows df) (<[c := v]> (columns df))).
Proof.
  intros Hwf Hlen c' col. simpl. rewrite lookup_insert.
  case_decide; [naive_solver | apply Hwf].
Qed.

(** X10: the first-stage cell keeps the table well formed, whether it
    completes or raises: every column, the new one included, has one entry
    per row, and the number of rows is unchanged. *)
Theorem first_stage_keeps_well_formed
    (clock : nat -> timestamp) (k k' : kernel) (o : outcome unit) (df : DataFrame) :
  voucher_df k = Some df -> well_formed df ->
  cell_first_stage clock k = (k', o) ->
  exists df', voucher_df k' = Some df' /\ well_formed df' /\ nrows df' = nrows df.
Proof.
  intros Hk Hwf Hrun.
  pose proof (wp_elim _ _ _ _ _ _ Hrun (cell_first_stage_spec clock k)) as Hspec.
  destruct o as [e|[]].
  - exists df. by rewrite Hspec.
  - destruct Hspec as (df1 & v & Hk1 & -> & Hlen & _).
    rewrite Hk in Hk1. injection Hk1 as <-.
    eexists. split; [done|]. split; [by apply well_formed_insert | done].
Qed.

(** ** Cells run before the table is loaded *)

(** X11: run while [voucher_df] is unbound, the summary cell, the naive
    regression and both stages raise NameError for [voucher_df]; none of them
    binds the table, rebinds [result] or touches a column. *)
Theorem cells_need_the_table (clock : nat -> timestamp) (k : kernel) :
  voucher_df k = None ->
  Forall (fun cell : M unit =>
            (cell k).2 = Raise (NameError "voucher_df")
            /\ voucher_df (cell k).1 = None
            /\ result (cell k).1 = result k
            /\ accesses (cell k).1 = accesses k)
    [cell_summary; cell_naive clock; cell_first_stage clock; cell_second_stage clock].
Proof.
  intros Hk.
  assert (Hwp : forall cell : M unit,
    wp cell (fun _ _ => False)
      (fun e k' => e = NameError "voucher_df" /\ voucher_df k' = None
                   /\ result k' = result k /\ accesses k' = accesses k) k ->
    (cell k).2 = Raise (NameError "voucher_df")
    /\ voucher_df (cell k).1 = None
    /\ result (cell k).1 = result k
    /\ accesses (cell k).1 = accesses k).
  { intros cell. unfold wp. destruct (cell k) as [k' [e|a]]; [|done].
    by intros (-> & ? & ? & ?). }
  repeat constructor; apply Hwp; wp_run; done.
Qed.


(** ** The groups of the summary *)

Lemma compress_groups {A} (col : list R) (xs : list A) :
  length xs = length col ->
  (length (compress (mask_of 0 col) xs) + length (compress (mask_of 1 col) xs)
   + length (ungrouped col))%nat = length xs.
Proof.
  revert xs. induction col as [|v col IH]; intros [|x xs] Hlen; simpl in *; try done.
  injection Hlen as Hlen. specialize (IH xs Hlen).
  unfold ungrouped in *. rewrite filter_cons.
  repeat case_bool_decide; repeat case_decide; simpl; try lia; try lra.
Qed.

Lemma summary_spec (k : kernel) (df : DataFrame) (col : list R) :
  voucher_df k = Some df ->
  columns df !! "use_fin_aid" = Some col ->
  wp cell_summary
    (fun _ k' => exists d d0 d1,
       describe df = Return d
       /\ describe (group_of 0 col df) = Return d0
       /\ describe (group_of 1 col df) = Return d1
       /\ stdout k' = stdout k ++
            [Text rule; Text "                              OVERALL SUMMARY"; Text rule;
             DescribeTable d;
             Text rule; Text "                         USE FINANCIAL AID = 0"; Text rule;
             DescribeTable d0;
             Text rule; Text "                         USE FINANCIAL AID = 1"; Text rule;
             DescribeTable d1]
       /\ voucher_df k' = Some df)
    (fun _ _ => True)
    k.
Proof.
  intros Hk Hcol. wp_run; try done.
  eexists _, _, _. repeat (split; [eassumption || reflexivity|]).
  split; [|done]. rewrite <- !app_assoc. reflexivity.
Qed.

(** X9: when the summary cell completes it has printed, under their
    banners, the description of the whole table and of the two groups
    [use_fin_aid == 0] and [use_fin_aid == 1]; every row is in exactly one of
    the two groups or has a value other than 0 and 1, and such a row is
    described in neither group. *)
Theorem summary_groups (k k' : kernel) (df : DataFrame) (col : list R) :
  voucher_df k = Some df ->
  columns df !! "use_fin_aid" = Some col ->
  length col = nrows df ->
  cell_summary k = (k', Return tt) ->
  (exists d d0 d1,
     describe df = Return d
     /\ describe (group_of 0 col df) = Return d0
     /\ describe (group_of 1 col df) = Return d1
     /\ stdout k' = stdout k ++
          [Text rule; Text "                              OVERALL SUMMARY"; Text rule;
           DescribeTable d;
           Text rule; Text "                         USE FINANCIAL AID = 0"; Text rule;
           DescribeTable d0;
           Text rule; Text "                         USE FINANCIAL AID = 1"; Text rule;
           DescribeTable d1])
  /\ (nrows (group_of 0 col df) + nrows (group_of 1 col df)
      + length (ungrouped col))%nat = nrows df.
Proof.
  intros Hk Hcol Hlen Hrun.
  destruct (wp_elim _ _ _ _ _ _ Hrun (summary_spec k df col Hk Hcol))
    as (d & d0 & d1 & Hd & Hd0 & Hd1 & Hout & _).
  split; [by eauto 10|].
  pose proof (compress_groups col (seq 0 (nrows df))) as Hgroups.
  rewrite length_seq in Hgroups. by apply Hgroups.
Qed.


Lemma compress_length {A B} (mask : list bool) (xs : list A) (ys : list B) :
  length xs = length ys -> length (compress mask xs) = length (compress mask ys).
Proof.
  revert xs ys. induction mask as [|b mask IH]; intros [|x xs] [|y ys] Hlen;
    simpl in *; try done.
  injection Hlen as Hlen. destruct b; simpl; by rewrite (IH xs ys).
Qed.

(** X14: the frame of each group handed to [describe] is well formed when
    the table is: each of its columns has as many entries as the group has
    rows. *)
Theorem group_of_well_formed (i : nat) (col : list R) (df : DataFrame) :
  well_formed df -> well_formed (group_of i col df).
Proof.
  intros Hwf c sub. unfold group_of. simpl. rewrite lookup_fmap.
  destruct (columns df !! c) as [full|] eqn:Hc; [|done].
  intros [= <-]. apply compress_length.
  rewrite length_seq. by apply (Hwf c).
Qed.

End Completion.

(** ** Running the notebook in a used kernel *)

Section Rerun.
Context `{Libraries}.

Ltac from_prim :=
  intros [] [] (Ht & Ha & Hr & Hout & Hdisp & Hacc); simpl in *;
  repeat match goal with Hx : true = true -> _ |- _ => specialize (Hx eq_refl) end;
  simplify_eq/=; repeat case_match; simplify_eq/=; try done;
  unfold continues; simpl; rewrite ?fmap_app, ?app_assoc; simpl;
  repeat split; intros; first [by auto | congruence].

Variable base : kernel.

Lemma from_ret {A} t a r (x : A) : agree_from base t a r t a r eq (mret x) (mret x).
Proof. from_prim. Qed.
Lemma from_lift {A} t a r (o : outcome A) :
  agree_from base t a r t a r eq (lift o) (lift o).
Proof. unfold lift. destruct o; from_prim. Qed.
Lemma from_print t a r l1 l2 :
  report_of l1 = report_of l2 -> agree_from base t a r t a r eq (print l1) (print l2).
Proof. intros Hl. from_prim. Qed.
Lemma from_display t a r v : agree_from base t a r t a r eq (display v) (display v).
Proof. from_prim. Qed.
Lemma from_touch t a r x : agree_from base t a r t a r eq (touch x) (touch x).
Proof. from_prim. Qed.
Lemma from_the_frame a r : agree_from base true a r true a r eq the_frame the_frame.
Proof. unfold the_frame. from_prim. Qed.
Lemma from_the_ate t r : agree_from base t true r t true r eq the_ate the_ate.
Proof. unfold the_ate. from_prim. Qed.
Lemma from_the_result t a : agree_from base t a true t a true eq the_result the_result.
Proof. unfold the_result. from_prim. Qed.
Lemma from_assign_voucher_df t a r df :
  agree_from base t a r true a r eq (assign_voucher_df df) (assign_voucher_df df).
Proof. from_prim. Qed.
Lemma from_assign_ate t a r x :
  agree_from base t a r t true r eq (assign_ate x) (assign_ate x).
Proof. from_prim. Qed.
Lemma from_assign_result t a r x :
  agree_from base t a r t a true eq (assign_result x) (assign_result x).
Proof. from_prim. Qed.
Lemma from_summary t a r clock1 clock2 x :
  agree_from base t a r t a r (fun s1 s2 => report_of s1 = report_of s2)
    (summary clock1 x) (summary clock2 x).
Proof. from_prim. Qed.

Lemma from_bind {A B} t a r t1 a1 r1 t2 a2 r2
    (R : A -> A -> Prop) (S : B -> B -> Prop) (m1 m2 : M A) (f1 f2 : A -> M B) :
  agree_from base t a r t1 a1 r1 R m1 m2 ->
  (forall x y, R x y -> agree_from base t1 a1 r1 t2 a2 r2 S (f1 x) (f2 y)) ->
  agree_from base t a r t2 a2 r2 S (m1 ≫= f1) (m2 ≫= f2).
Proof.
  intros Hm Hf k1 k2 Hsim. specialize (Hm k1 k2 Hsim).
  unfold mbind, M_bind.
  destruct (m1 k1) as [k1' [e1|x]], (m2 k2) as [k2' [e2|y]]; try done.
  destruct Hm as [Hsim' HR]. by apply Hf.
Qed.

Lemma from_mapM {A B} t a r (f : A -> M B) (l : list A) :
  (forall x, agree_from base t a r t a r eq (f x) (f x)) ->
  agree_from base t a r t a r eq (mapM f l) (mapM f l).
Proof.
  intros Hf. induction l as [|x l IH]; simpl.
  - apply from_ret.
  - eapply from_bind; [apply Hf|]. intros y ? <-.
    eapply from_bind; [apply IH|]. intros ys ? <-. apply from_ret.
Qed.

End Rerun.

Ltac from_run :=
  lazymatch goal with
  | |- agree_from _ _ _ _ _ _ _ _ (mbind _ _) (mbind _ _) =>
      eapply from_bind;
      [from_run | intros ? ? ?; cbv beta in *; subst; from_run]
  | |- agree_from _ _ _ _ _ _ _ _ (mret _) (mret _) => apply from_ret
  | |- agree_from _ _ _ _ _ _ _ _ (lift _) (lift _) => apply from_lift
  | |- agree_from _ _ _ _ _ _ _ _ (print _) (print _) => apply from_print; done
  | |- agree_from _ _ _ _ _ _ _ _ (display _) (display _) => apply from_display
  | |- agree_from _ _ _ _ _ _ _ _ (touch _) (touch _) => apply from_touch
  | |- agree_from _ _ _ _ _ _ _ _ the_frame the_frame => apply from_the_frame
  | |- agree_from _ _ _ _ _ _ _ _ the_ate the_ate => apply from_the_ate
  | |- agree_from _ _ _ _ _ _ _ _ the_result the_result => apply from_the_result
  | |- agree_from _ _ _ _ _ _ _ _ (assign_voucher_df _) _ => apply from_assign_voucher_df
  | |- agree_from _ _ _ _ _ _ _ _ (assign_ate _) _ => apply from_assign_ate
  | |- agree_from _ _ _ _ _ _ _ _ (assign_result _) _ => apply from_assign_result
  | |- agree_from _ _ _ _ _ _ _ _ (summary _ _) (summary _ _) => apply from_summary
  | |- agree_from _ _ _ _ _ _ _ _ (mapM _ _) (mapM _ _) =>
      apply from_mapM; intros ?; from_run
  | |- agree_from _ _ _ _ _ _ _ _ (match ?x with _ => _ end) (match ?x with _ => _ end) =>
      destruct x; from_run
  | |- agree_from _ _ _ _ _ _ _ _ ?m _ => let h := head_of m in unfold h; from_run
  end.

Section RunAgain.
Context `{Libraries}.

Lemma run_all_from (base : kernel) (clock1 clock2 : nat -> timestamp) :
  agree_from base false false false true true true eq (run_all clock1) (run_all clock2).
Proof. from_run. Qed.

Lemma continues_start (k : kernel) : continues false false false k k kernel0.
Proof. unfold continues. simpl. rewrite !app_nil_r. by repeat split. Qed.

(** C9: two runs of the notebook on the same file with the same libraries
    (each a function of its arguments, as the interface [Libraries] has
    them) produce the same outputs, whenever they are made and whatever the
    kernels they start in hold, the kernel a first run has left included.
    The two runs end the same way (both complete, or both stop at the same
    exception); when they complete they bind the same table, the same ATE
    and the same last fit, and they print and display the same items (the
    same lines, descriptive statistics, ATE and odds values, coefficients
    and regression statistics), each after what its kernel held before.
    Two runs in fresh kernels report the same outputs also when they stop
    at an exception. *)
Theorem run_all_deterministic (clock1 clock2 : nat -> timestamp) (k1 k2 : kernel) :
  (run_all clock1 k1).2 = (run_all clock2 k2).2
  /\ ((run_all clock1 k1).2 = Return tt ->
      voucher_df (run_all clock1 k1).1 = voucher_df (run_all clock2 k2).1
      /\ ate (run_all clock1 k1).1 = ate (run_all clock2 k2).1
      /\ result (run_all clock1 k1).1 = result (run_all clock2 k2).1
      /\ exists lines shown,
           report_of <$> stdout (run_all clock1 k1).1 = (report_of <$> stdout k1) ++ lines
           /\ report_of <$> stdout (run_all clock2 k2).1 = (report_of <$> stdout k2) ++ lines
           /\ displayed (run_all clock1 k1).1 = displayed k1 ++ shown
           /\ displayed (run_all clock2 k2).1 = displayed k2 ++ shown)
  /\ outputs_of (run_all clock1 kernel0).1 = outputs_of (run_all clock2 kernel0).1.
Proof.
  pose proof (run_all_from k1 clock1 clock2 k1 kernel0 (continues_start k1)) as H1.
  pose proof (run_all_from k2 clock2 clock2 k2 kernel0 (continues_start k2)) as H2.
  pose proof (run_all_agree clock1 clock2 kernel0 kernel0 (conj eq_refl eq_refl)) as H0.
  split; [|split].
  - destruct (run_all clock1 k1) as [k1' [e1|[]]], (run_all clock2 k2) as [k2' [e2|[]]],
      (run_all clock2 kernel0) as [k0 [e0|[]]]; simpl; try done. congruence.
  - destruct (run_all clock1 k1) as [k1' [e1|[]]], (run_all clock2 k2) as [k2' [e2|[]]],
      (run_all clock2 kernel0) as [k0 [e0|[]]]; simpl; try done.
    destruct H1 as [(Ht1 & Ha1 & Hr1 & Hout1 & Hdisp1 & _) _].
    destruct H2 as [(Ht2 & Ha2 & Hr2 & Hout2 & Hdisp2 & _) _].
    intros _. rewrite Ht1, Ha1, Hr1, Ht2, Ha2, Hr2 by done.
    repeat split. by exists (report_of <$> stdout k0), (displayed k0).
  - destruct (run_all clock1 kernel0) as [k1' [e1|[]]],
      (run_all clock2 kernel0) as [k2' [e2|[]]]; simpl; try done;
      by destruct H0 as [[Hout _] _].
Qed.

(** X12: the notebook can be run again in a used kernel.  From any
    kernel, whatever [voucher_df], [ate] and [result] are bound to, a run
    ends as a run from a fresh kernel does; when it completes, the three
    variables are bound as in the fresh run, and what it printed and
    displayed is what the fresh run printed and displayed (up to the stamps
    of the summaries), after what was there before. *)
Theorem run_all_in_used_kernel (clock1 clock2 : nat -> timestamp) (k : kernel) :
  (run_all clock1 k).2 = (run_all clock2 kernel0).2
  /\ ((run_all clock1 k).2 = Return tt ->
      voucher_df (run_all clock1 k).1 = voucher_df (run_all clock2 kernel0).1
      /\ ate (run_all clock1 k).1 = ate (run_all clock2 kernel0).1
      /\ result (run_all clock1 k).1 = result (run_all clock2 kernel0).1
      /\ report_of <$> stdout (run_all clock1 k).1
         = (report_of <$> stdout k) ++ (report_of <$> stdout (run_all clock2 kernel0).1)
      /\ displayed (run_all clock1 k).1
         = displayed k ++ displayed (run_all clock2 kernel0).1).
Proof.
  assert (Hstart : continues false false false k k kernel0).
  { unfold continues. simpl. rewrite !app_nil_r. by repeat split. }
  pose proof (run_all_from k clock1 clock2 k kernel0 Hstart) as Hsim.
  destruct (run_all clock1 k) as [k1 [e1|[]]];
    destruct (run_all clock2 kernel0) as [k2 [e2|[]]]; simpl; try done.
  - by rewrite Hsim.
  - destruct Hsim as [(Ht & Ha & Hr & Hout & Hdisp & _) _]. split; [done|].
    intros _. auto.
Qed.
End RunAgain.

(** ** Instances of the further theorems *)

Lemma sample_frame_well_formed : well_formed sample_frame.
Proof.
  intros c col. unfold sample_frame. simpl.
  repeat (rewrite lookup_insert; case_decide; [by intros [= <-]|]).
  by rewrite lookup_empty.
Qed.

Lemma sample_summary_completes :
  cell_summary (H := sample_libraries) loaded
  = ((cell_summary (H := sample_libraries) loaded).1, Return tt).
Proof. apply returned. reflexivity. Qed.



Lemma second_stage_uses_first_stage_fit_witness :
  exists y t z m a beta1 rep1 fitted beta2 rep2 c,
    columns sample_frame !! "finish8th" = Some y
    /\ columns sample_frame !! "use_fin_aid" = Some t
    /\ columns sample_frame !! "won_lottry" = Some z
    /\ columns sample_frame !! "male" = Some m
    /\ columns sample_frame !! "base_age" = Some a
    /\ glm_fit (Libraries := sample_libraries)
         (design_matrix (nrows sample_frame) [z; m; a]) t = Return (beta1, rep1)
    /\ predict (H := sample_libraries)
         (Results (design_matrix (nrows sample_frame) [z; m; a]) beta1 rep1)
       = Return fitted
    /\ columns <$> voucher_df (run_all (H := sample_libraries) morning kernel0).1
       = Some (<["use_fin_aid_fitted" := fitted]> (columns sample_frame))
    /\ glm_fit (Libraries := sample_libraries)
         (design_matrix (nrows sample_frame) [fitted; m; a]) y = Return (beta2, rep2)
    /\ result (run_all (H := sample_libraries) morning kernel0).1
       = Some (Results (design_matrix (nrows sample_frame) [fitted; m; a]) beta2 rep2)
    /\ beta2 !! 1%nat = Some c
    /\ last (stdout (run_all (H := sample_libraries) morning kernel0).1)
       = Some (Formatted odds_template (exp c)).
Proof.
  apply (second_stage_uses_first_stage_fit (H := sample_libraries) morning sample_frame).
  - reflexivity.
  - apply sample_run_completes.
Defined.

Lemma first_stage_rerun_witness :
  exists k2,
    cell_first_stage (H := sample_libraries) evening
      (cell_first_stage (H := sample_libraries) morning loaded).1 = (k2, Return tt)
    /\ voucher_df k2
       = voucher_df (cell_first_stage (H := sample_libraries) morning loaded).1
    /\ result k2 = result (cell_first_stage (H := sample_libraries) morning loaded).1.
Proof.
  apply (first_stage_rerun (H := sample_libraries) morning evening loaded).
  apply sample_first_stage_completes.
Defined.

Lemma summary_groups_witness :
  (nrows (group_of 0 [1; 1; 0; 0; 1]%R sample_frame)
   + nrows (group_of 1 [1; 1; 0; 0; 1]%R sample_frame)
   + length (ungrouped [1; 1; 0; 0; 1]%R))%nat = nrows sample_frame.
Proof.
  refine (proj2 (summary_groups (H := sample_libraries) loaded _ sample_frame
                   [1; 1; 0; 0; 1] eq_refl _ eq_refl sample_summary_completes)).
  reflexivity.
Defined.

Lemma first_stage_keeps_well_formed_witness :
  exists df',
    voucher_df (cell_first_stage (H := sample_libraries) morning loaded).1 = Some df'
    /\ well_formed df'
    /\ nrows df' = nrows sample_frame.
Proof.
  apply (first_stage_keeps_well_formed (H := sample_libraries) morning loaded _
           (Return tt) sample_frame eq_refl sample_frame_well_formed).
  apply sample_first_stage_completes.
Defined.

Lemma cells_need_the_table_witness :
  Forall (fun cell : M (H := sample_libraries) unit =>
            (cell kernel0).2 = Raise (NameError "voucher_df")
            /\ voucher_df (cell kernel0).1 = None
            /\ result (cell kernel0).1 = None
            /\ accesses (cell kernel0).1 = [])
    [cell_summary;
     cell_naive (H := sample_libraries) morning;
     cell_first_stage (H := sample_libraries) morning;
     cell_second_stage (H := sample_libraries) morning].
Proof.
  exact (cells_need_the_table (H := sample_libraries) morning kernel0 eq_refl).
Defined.

Lemma group_of_well_formed_witness :
  well_formed (group_of 1 [1; 1; 0; 0; 1]%R sample_frame).
Proof. exact (group_of_well_formed 1 _ sample_frame sample_frame_well_formed). Defined.
